(** * discovery-ai: the ingest pipeline of [main.py]

    A shallow embedding of the Cloud Function in [src/main.py]: the event
    router [analyze_discovery_material_ce], the folder policy
    [handle_new_file_or_change], the validator [validate_file] /
    [validate_file_helper], the transcription stage [speech_to_text] and the
    audit logger [gcs_log].

    Python statements become computations in a state-and-exception monad
    over a [world] that holds the remote buckets, the local scratch files,
    the record of external calls and the process logger.  Other invocations
    and storage faults act through a schedule of [turn]s, one consulted at
    every storage call. *)

From Stdlib Require Import ZArith String Ascii List Bool Lia.
From stdpp Require Import base option list gmap strings pretty.

Local Open Scope string_scope.
Local Open Scope list_scope.
Local Open Scope Z_scope.

(** ** Python's string functions used by the program *)

Module Py.

(** The double quote character. *)
Definition dq : string := String (ascii_of_nat 34) EmptyString.

(** ["\n"] *)
Definition nl : string := String (ascii_of_nat 10) EmptyString.

(** [c in s] for a one-character [c]. *)
Fixpoint contains (c : ascii) (s : string) : bool :=
  match s with
  | EmptyString => false
  | String a r => Ascii.eqb a c || contains c r
  end.

(** [s.rfind(c)]: index of the last occurrence of [c], [-1] if none. *)
Fixpoint rfind (c : ascii) (s : string) : Z :=
  match s with
  | EmptyString => -1
  | String a r =>
      let i := rfind c r in
      if 0 <=? i then i + 1
      else if Ascii.eqb a c then 0 else -1
  end.

Fixpoint take (n : nat) (s : string) : string :=
  match n, s with
  | S k, String a r => String a (take k r)
  | _, _ => EmptyString
  end.

Fixpoint drop (n : nat) (s : string) : string :=
  match n, s with
  | S k, String _ r => drop k r
  | _, _ => s
  end.

(** [s[:i]] and [s[i:]] for [0 <= i]. *)
Definition slice_to (i : Z) (s : string) : string := take (Z.to_nat i) s.
Definition slice_from (i : Z) (s : string) : string := drop (Z.to_nat i) s.

(** [s[i:i+1]] *)
Definition char_at (i : Z) (s : string) : string :=
  take 1 (drop (Z.to_nat i) s).

(** The [while filenameIndex < dotIndex] loop of [genericpath._splitext]:
    [true] as soon as a character other than [extsep] is met. *)
Fixpoint non_dot_before (fuel : nat) (p : string) (filenameIndex : Z) : bool :=
  match fuel with
  | O => false
  | S k =>
      if negb (String.eqb (char_at filenameIndex p) ".") then true
      else non_dot_before k p (filenameIndex + 1)
  end.

(** [os.path.splitext] (posixpath: [sep = "/"], [extsep = "."]). *)
Definition splitext (p : string) : string * string :=
  let sepIndex := rfind "/" p in
  let dotIndex := rfind "." p in
  if sepIndex <? dotIndex then
    if non_dot_before (Z.to_nat (dotIndex - (sepIndex + 1))) p (sepIndex + 1)
    then (slice_to dotIndex p, slice_from dotIndex p)
    else (p, EmptyString)
  else (p, EmptyString).

(** [os.path.basename] (posixpath). *)
Definition basename (p : string) : string :=
  let i := rfind "/" p + 1 in
  slice_from i p.

(** [str.lower] on the ASCII letters; a path is a byte string here, and
    bytes outside [A-Z] are left as they are. *)
Definition lower_ascii (a : ascii) : ascii :=
  let n := nat_of_ascii a in
  if ((65 <=? n) && (n <=? 90))%nat then ascii_of_nat (n + 32) else a.

Fixpoint lower (s : string) : string :=
  match s with
  | EmptyString => EmptyString
  | String a r => String (lower_ascii a) (lower r)
  end.

(** [str.strip()] with the ASCII white space. *)
Definition is_space (a : ascii) : bool :=
  let n := nat_of_ascii a in
  ((9 <=? n) && (n <=? 13) || (28 <=? n) && (n <=? 32))%nat.

Fixpoint lstrip (s : string) : string :=
  match s with
  | EmptyString => EmptyString
  | String a r => if is_space a then lstrip r else s
  end.

Fixpoint rstrip (s : string) : string :=
  match s with
  | EmptyString => EmptyString
  | String a r =>
      match rstrip r with
      | EmptyString => if is_space a then EmptyString else String a EmptyString
      | r' => String a r'
      end
  end.

Definition strip (s : string) : string := rstrip (lstrip s).

(** ["sep".join(l)] *)
Fixpoint join (sep : string) (l : list string) : string :=
  match l with
  | [] => EmptyString
  | [x] => x
  | x :: r => x +:+ sep +:+ join sep r
  end.

(** [x in (a, b, ...)] for strings. *)
Definition str_in (x : string) (l : list string) : bool :=
  existsb (String.eqb x) l.

(** [s.split(c)] for a one-character separator: every occurrence of [c]
    cuts, so the result is never empty. *)
Fixpoint split (c : ascii) (s : string) : list string :=
  match s with
  | EmptyString => [EmptyString]
  | String a r =>
      if Ascii.eqb a c then EmptyString :: split c r
      else match split c r with
           | x :: xs => String a x :: xs
           | [] => [String a EmptyString]
           end
  end.

(** [s.lstrip(c)] for a one-character [c]. *)
Fixpoint lstrip_char (c : ascii) (s : string) : string :=
  match s with
  | EmptyString => EmptyString
  | String a r => if Ascii.eqb a c then lstrip_char c r else s
  end.

(** [s.endswith(c)] for a one-character [c]. *)
Fixpoint endswith (c : ascii) (s : string) : bool :=
  match s with
  | EmptyString => false
  | String a EmptyString => Ascii.eqb a c
  | String _ r => endswith c r
  end.

End Py.

(** ** Exceptions and results *)

(** The exception classes the program meets; all derive from [Exception]. *)
Inductive exn_kind :=
| PreconditionFailed   (* google.api_core.exceptions.PreconditionFailed *)
| NotFound             (* google.api_core.exceptions.NotFound *)
| CalledProcessError   (* subprocess.CalledProcessError *)
| TimeoutExpired       (* subprocess.TimeoutExpired *)
| OSError              (* FileNotFoundError and the like *)
| IndexError
| OtherError.

(** An exception object: its class and [str(e)] (for [CalledProcessError],
    its [stderr]). *)
Record exn := Exn { kind : exn_kind; text : string }.

Inductive res (A : Type) :=
| Ok (a : A)
| Raise (e : exn).
Arguments Ok {A} a.
Arguments Raise {A} e.

Definition is_kind (k : exn_kind) (e : exn) : bool :=
  match k, kind e with
  | PreconditionFailed, PreconditionFailed
  | NotFound, NotFound
  | CalledProcessError, CalledProcessError
  | TimeoutExpired, TimeoutExpired
  | OSError, OSError
  | IndexError, IndexError
  | OtherError, OtherError => true
  | _, _ => false
  end.

(** ** The world of one invocation *)

(** A stored object with the generation the storage layer gave it. *)
Record blob := Blob { generation : Z; content : string }.

(** Levels of the process logger ([logger.exception] logs at [ERROR]). *)
Inductive level := INFO | WARNING | ERROR.

(** External calls that took effect, oldest first.  A storage key is
    (bucket, object name). *)
Inductive call :=
| CExists (k : string * string) (r : bool)
| CReload (k : string * string) (g : Z)
| CDownload (k : string * string) (path : string) (c : string)
| CUpload (k : string * string) (c : string) (if_generation_match : option Z)
| CRejected (k : string * string) (c : string) (if_generation_match : option Z)
| CDelete (k : string * string)
| CProbe (path : string)
| CRecognize (uri : string)
| CSleep (ms : Z).

(** What the environment does just before one storage call of this
    invocation takes effect: other invocations commit log entries, and the
    call may fail with [fault] instead of running. *)
Record turn := Turn { others : list string; fault : option exn }.

(** The external collaborators, as black boxes.  [ffprobe] is
    [subprocess.run(["ffprobe", "-v", "error", "-i", path], timeout=30)] on
    the bytes of the file: the (returncode, stderr) of the completed process,
    or the exception [subprocess.run] raises.  The three openers get the
    bytes of the local file ([None] when it is missing).  [recognize] is
    [client.recognize]: for each result its alternatives' transcripts. *)
Record services := Services {
  ffprobe : string -> res (Z * string);
  image_verify : option string -> res unit;
  docx_open : option string -> res unit;
  pdf_pages : option string -> res unit;
  recognize : string -> res (list (list string));
}.

Record world := World {
  store : gmap (string * string) blob;   (* the buckets *)
  next_generation : Z;                    (* generation of the next write *)
  fs : gmap string string;                (* local scratch files *)
  now : string;                           (* the formatted UTC time *)
  turns : list turn;                      (* the environment's schedule *)
  svc : services;
  calls : list call;
  logger : list (level * string);
}.

Definition set_store (f : gmap (string * string) blob -> gmap (string * string) blob) (w : world) : world :=
  World (f (store w)) (next_generation w) (fs w) (now w) (turns w) (svc w) (calls w) (logger w).
Definition bump_generation (w : world) : world :=
  World (store w) (next_generation w + 1) (fs w) (now w) (turns w) (svc w) (calls w) (logger w).
Definition set_fs (f : gmap string string -> gmap string string) (w : world) : world :=
  World (store w) (next_generation w) (f (fs w)) (now w) (turns w) (svc w) (calls w) (logger w).
Definition set_turns (ts : list turn) (w : world) : world :=
  World (store w) (next_generation w) (fs w) (now w) ts (svc w) (calls w) (logger w).
Definition record (c : call) (w : world) : world :=
  World (store w) (next_generation w) (fs w) (now w) (turns w) (svc w) (calls w ++ [c]) (logger w).
Definition emit (l : level) (msg : string) (w : world) : world :=
  World (store w) (next_generation w) (fs w) (now w) (turns w) (svc w) (calls w) (logger w ++ [(l, msg)]).

(** ** The monad: state and exceptions *)

Definition M (A : Type) : Type := world -> res A * world.

Definition ret {A} (a : A) : M A := fun w => (Ok a, w).

Definition bind {A B} (m : M A) (k : A -> M B) : M B :=
  fun w =>
    match m w with
    | (Ok a, w') => k a w'
    | (Raise e, w') => (Raise e, w')
    end.

Definition raise {A} (e : exn) : M A := fun w => (Raise e, w).

(** [try: m  except Exception as e: h e] *)
Definition try_except {A} (m : M A) (h : exn -> M A) : M A :=
  fun w =>
    match m w with
    | (Ok a, w') => (Ok a, w')
    | (Raise e, w') => h e w'
    end.

Definition gets {A} (f : world -> A) : M A := fun w => (Ok (f w), w).
Definition modify (f : world -> world) : M unit := fun w => (Ok tt, f w).

(** A black box answers with a value or raises. *)
Definition lift {A} (r : res A) : M A := fun w => (r, w).

Notation "x <- m ;; k" := (bind m (fun x => k))
  (at level 100, m at next level, right associativity).
Notation "m ;; k" := (bind m (fun _ => k))
  (at level 100, right associativity).

(** The final world and the result of running a computation. *)
Definition exec {A} (m : M A) (w : world) : world := snd (m w).
Definition result {A} (m : M A) (w : world) : res A := fst (m w).

(** ** Configuration ([main.py], lines 24-30) *)

Definition OUTPUT_BUCKET : string := "discovery-processed".
Definition LOCAL_LOG_PATH : string := "/tmp/logs.txt".
Definition LOG_FOLDER : string := "logs".
Definition LOG_FILE_NAME : string := "logs.txt".
Definition LOG_BUCKET_NAME : string := "discovery-processed".

(** The key of the audit log object: [bucket.blob(f"{LOG_FOLDER}/{LOG_FILE_NAME}")]. *)
Definition LOG_KEY : string * string :=
  (LOG_BUCKET_NAME, LOG_FOLDER +:+ "/" +:+ LOG_FILE_NAME).

(** ** The process logger, the clock and the local files *)

Definition logger_info (msg : string) : M unit := modify (emit INFO msg).
Definition logger_warning (msg : string) : M unit := modify (emit WARNING msg).
Definition logger_error (msg : string) : M unit := modify (emit ERROR msg).
Definition logger_exception (msg : string) : M unit := modify (emit ERROR msg).

Definition time_sleep (ms : Z) : M unit := modify (record (CSleep ms)).

(** [open(path, "w")] followed by [f.write(s)] (or by nothing, [s = EmptyString]). *)
Definition file_write (path s : string) : M unit :=
  modify (set_fs (insert path s)).

(** [open(path, "a")] followed by [f.write(s)]. *)
Definition file_append (path s : string) : M unit :=
  modify (set_fs (fun m => <[path := default EmptyString (m !! path) +:+ s]> m)).

(** ** The object store *)

Definition generation_of (w : world) (k : string * string) : Z :=
  match store w !! k with
  | Some b => generation b
  | None => 0
  end.

Definition content_of (w : world) (k : string * string) : string :=
  match store w !! k with
  | Some b => content b
  | None => EmptyString
  end.

(** A write that the store accepts: the object gets the new bytes and a
    fresh generation. *)
Definition commit (k : string * string) (c : string) (w : world) : world :=
  bump_generation (set_store (insert k (Blob (next_generation w) c)) w).

(** Another invocation appends [entry] to the audit log without being
    interrupted (see [gcs_log_quiet] below: that is what an undisturbed
    call of [gcs_log] does to the store). *)
Definition other_append (w : world) (entry : string) : world :=
  commit LOG_KEY (content_of w LOG_KEY +:+ entry) w.

(** The environment takes its turn before a storage call. *)
Definition env_turn : M unit :=
  fun w =>
    match turns w with
    | [] => (Ok tt, w)
    | t :: ts =>
        let w' := fold_left other_append (others t) (set_turns ts w) in
        match fault t with
        | Some e => (Raise e, w')
        | None => (Ok tt, w')
        end
    end.

(** [blob.exists()] *)
Definition blob_exists (k : string * string) : M bool :=
  env_turn ;;
  r <- gets (fun w => bool_decide (is_Some (store w !! k))) ;;
  modify (record (CExists k r)) ;;
  ret r.

(** [blob.reload()], then [blob.generation]. *)
Definition blob_reload (k : string * string) : M Z :=
  env_turn ;;
  o <- gets (fun w => store w !! k) ;;
  match o with
  | None => raise (Exn NotFound "404 object not found")
  | Some b => modify (record (CReload k (generation b))) ;; ret (generation b)
  end.

(** [blob.download_to_filename(path)] *)
Definition blob_download_to_filename (k : string * string) (path : string) : M unit :=
  env_turn ;;
  o <- gets (fun w => store w !! k) ;;
  match o with
  | None => raise (Exn NotFound "404 object not found")
  | Some b =>
      modify (set_fs (insert path (content b))) ;;
      modify (record (CDownload k path (content b)))
  end.

(** [blob.upload_from_filename(path, **upload_kwargs)]: with
    [if_generation_match = g] the store accepts the write only while the
    object's generation is [g]. *)
Definition blob_upload_from_filename (k : string * string) (path : string)
    (if_generation_match : option Z) : M unit :=
  env_turn ;;
  o <- gets (fun w => fs w !! path) ;;
  match o with
  | None => raise (Exn OSError "No such file or directory")
  | Some c =>
      current <- gets (fun w => generation_of w k) ;;
      match if_generation_match with
      | Some g =>
          if current =? g
          then modify (commit k c) ;; modify (record (CUpload k c (Some g)))
          else modify (record (CRejected k c (Some g))) ;;
               raise (Exn PreconditionFailed "412 conditionNotMet")
      | None => modify (commit k c) ;; modify (record (CUpload k c None))
      end
  end.

(** [blob.delete()] *)
Definition blob_delete (k : string * string) : M unit :=
  env_turn ;;
  o <- gets (fun w => store w !! k) ;;
  match o with
  | None => raise (Exn NotFound "404 object not found")
  | Some _ => modify (set_store (delete k)) ;; modify (record (CDelete k))
  end.

(** ** The event ([ce["type"]], [ce.data["bucket"]], [ce.data["name"]]) *)

Record CloudEvent := Event { ce_type : string; bucket : string; name : string }.

(** ** [gcs_log] (lines 280-325) *)

(** How a statement of the loop body ends. *)
Inductive ctl := Normal | Return | Continue.

(** Lines 295-305: fetch the remote log into the local file (or start an
    empty one) and append the entry locally; the value is
    [current_generation]. *)
Definition gcs_log_stage (log_entry : string) : M Z :=
  e <- blob_exists LOG_KEY ;;
  current_generation <-
    (if e : bool then
       g <- blob_reload LOG_KEY ;;
       blob_download_to_filename LOG_KEY LOCAL_LOG_PATH ;;
       ret g
     else
       file_write LOCAL_LOG_PATH EmptyString ;;
       ret 0) ;;
  file_append LOCAL_LOG_PATH log_entry ;;
  ret current_generation.

(** Lines 308-312: the upload, conditional when a generation was seen. *)
Definition gcs_log_upload (current_generation : Z) : M unit :=
  let upload_kwargs := if 0 <? current_generation then Some current_generation else None in
  blob_upload_from_filename LOG_KEY LOCAL_LOG_PATH upload_kwargs.

(** Lines 293-323: the [try] statement of one attempt. *)
Definition gcs_log_try (log_entry : string) (attempt : Z) : M ctl :=
  try_except
    (current_generation <- gcs_log_stage log_entry ;;
     gcs_log_upload current_generation ;;
     logger_info ("🪵 Successfully appended to logs.txt on attempt " +:+ pretty attempt) ;;
     ret Return)
    (fun e =>
       if is_kind PreconditionFailed e then
         logger_warning ("⚠️ Generation mismatch on attempt " +:+ pretty attempt +:+ ", retrying...") ;;
         time_sleep (500 * attempt) ;;
         ret Continue
       else
         logger_exception ("❌ Unexpected error while writing to logs.txt: " +:+ text e) ;;
         ret Return).

(** Lines 293-325: the loop body, the [try] statement followed by the
    [logger.error] that stands after it inside the loop. *)
Definition gcs_log_body (log_entry : string) (attempt : Z) : M ctl :=
  c <- gcs_log_try log_entry attempt ;;
  match c with
  | Normal =>
      logger_error "❌ Failed to append log after multiple retries due to concurrent writes." ;;
      ret Normal
  | _ => ret c
  end.

(** [for attempt in range(1, max_retries + 1)], [remaining] iterations
    left. *)
Fixpoint gcs_log_loop (log_entry : string) (remaining : nat) (attempt : Z) : M unit :=
  match remaining with
  | O => ret tt
  | S r =>
      c <- gcs_log_body log_entry attempt ;;
      match c with
      | Return => ret tt
      | _ => gcs_log_loop log_entry r (attempt + 1)
      end
  end.

(** [f"[{timestamp}] [{severity}]: {message}\n"] *)
Definition format_entry (timestamp severity message : string) : string :=
  "[" +:+ timestamp +:+ "] [" +:+ severity +:+ "]: " +:+ message +:+ Py.nl.

Definition gcs_log (message severity : string) (max_retries : Z) : M unit :=
  timestamp <- gets now ;;
  let log_entry := format_entry timestamp severity message in
  gcs_log_loop log_entry (Z.to_nat max_retries) 1.

(** ** [get_file_extension] and [validate_file_helper] (lines 225-278) *)

Definition get_file_extension (file_name : string) : string :=
  Py.lower (snd (Py.splitext file_name)).

(** [try: m  except k as e: h e]: any other exception passes through. *)
Definition try_except_only {A} (k : exn_kind) (m : M A) (h : exn -> M A) : M A :=
  try_except m (fun e => if is_kind k e then h e else raise e).

(** [subprocess.run(["ffprobe", "-v", "error", "-i", local_path], ...)] *)
Definition subprocess_run_ffprobe (local_path : string) : M (Z * string) :=
  modify (record (CProbe local_path)) ;;
  fun w => lift (ffprobe (svc w) (default EmptyString (fs w !! local_path))) w.

Definition os_path_exists (path : string) : M bool :=
  gets (fun w => bool_decide (is_Some (fs w !! path))).

(** The five branches of the [if]/[elif] chain, in the order of the source. *)
Definition validate_media (local_path file_name : string) : M (bool * string) :=
  there <- os_path_exists local_path ;;
  if negb there then
    ret (false, "File download failed: " +:+ local_path +:+ " does not exist.")
  else
    try_except_only CalledProcessError
      (result <- subprocess_run_ffprobe local_path ;;
       let returncode := fst result in
       let stderr_content := Py.strip (snd result) in
       if negb (returncode =? 0) || negb (String.eqb stderr_content EmptyString) then
         ret (false, "Invalid or corrupted media: " +:+ file_name +:+ ", "
                     +:+ (if String.eqb stderr_content EmptyString then "None-zero exit code"
                          else stderr_content))
       else
         ret (true, file_name +:+ " file passed integrity check."))
      (fun e => ret (false, "Invalid or corrupted media: " +:+ Py.strip (text e))).

Definition validate_image (local_path : string) : M (bool * string) :=
  try_except
    ((fun w => lift (image_verify (svc w) (fs w !! local_path)) w) ;;
     ret (true, "Image file is valid."))
    (fun e => ret (false, "Corrupted image file: " +:+ text e)).

Definition validate_docx (local_path : string) : M (bool * string) :=
  try_except
    ((fun w => lift (docx_open (svc w) (fs w !! local_path)) w) ;;
     ret (true, "DOCX file opened successfully."))
    (fun e => ret (false, "Corrupted DOCX file: " +:+ text e)).

Definition validate_pdf (local_path : string) : M (bool * string) :=
  try_except
    ((fun w => lift (pdf_pages (svc w) (fs w !! local_path)) w) ;;
     ret (true, "PDF file opened successfully."))
    (fun e => ret (false, "Corrupted or unreadable PDF: " +:+ text e)).

Definition validate_unsupported (file_name : string) : M (bool * string) :=
  ret (false, "Unsupported file type for " +:+ file_name +:+ "; skipping validation.").

Definition MEDIA_EXTS : list string := [".mp4"; ".mkv"; ".mp3"; ".wav"; ".m4a"].
Definition IMAGE_EXTS : list string := [".jpg"; ".jpeg"; ".png"].
Definition AUDIO_EXTS : list string := [".mp3"; ".wav"; ".flac"; ".m4a"; ".ogg"].

Definition validate_file_helper (local_path file_name : string) : M (bool * string) :=
  let ext := get_file_extension file_name in
  (* Audio / video files *)
  if Py.str_in ext MEDIA_EXTS then validate_media local_path file_name
  (* Image files *)
  else if Py.str_in ext IMAGE_EXTS then validate_image local_path
  (* Docx *)
  else if String.eqb ext ".docx" then validate_docx local_path
  (* Pdf *)
  else if String.eqb ext ".pdf" then validate_pdf local_path
  (* Unknown / unsupported *)
  else validate_unsupported file_name.

(** ** [validate_file] (lines 202-223) *)

Definition validate_file (ce : CloudEvent) : M unit :=
  logger_info "Trying to validate file!" ;;
  let file_name := name ce in
  let bucket_name := bucket ce in
  let tmp_path := "/tmp/" +:+ Py.basename file_name in
  logger_info "WE GET HERE:)" ;;
  blob_download_to_filename (bucket_name, file_name) tmp_path ;;
  logger_info ("📥 Downloaded " +:+ file_name +:+ " for validation.") ;;
  v <- validate_file_helper tmp_path file_name ;;
  let valid := fst v in
  let message := snd v in
  if valid then
    logger_info message
  else
    logger_warning message ;;
    blob_delete (bucket_name, file_name) ;;
    gcs_log ("Deleted corrupted or invalid file " +:+ file_name +:+ ": " +:+ message +:+ Py.nl)
            "ERROR" 5.

(** ** [handle_new_file_or_change] (lines 182-199) *)

Definition handle_new_file_or_change (ce : CloudEvent) : M bool :=
  let file_name := name ce in
  let bucket_name := bucket ce in
  if negb (Py.contains "/" file_name) then
    logger_info ("❌ File " +:+ file_name +:+ " uploaded at bucket root — not allowed.") ;;
    blob_delete (bucket_name, file_name) ;;
    gcs_log ("Deleted disallowed file " +:+ file_name +:+ " (no files allowed at bucket root)")
            "INFO" 5 ;;
    ret true
  else
    logger_info ("✅ File " +:+ file_name +:+ " is inside a folder. Continuing...") ;;
    ret false.

(** ** [transcribe_gcs] and [speech_to_text] (lines 88-150) *)

(** [[result.alternatives[0].transcript for result in response.results]] *)
Fixpoint first_alternatives (results : list (list string)) : res (list string) :=
  match results with
  | [] => Ok []
  | alternatives :: rest =>
      match alternatives with
      | [] => Raise (Exn IndexError "list index out of range")
      | t :: _ =>
          match first_alternatives rest with
          | Ok ts => Ok (t :: ts)
          | Raise e => Raise e
          end
      end
  end.

Definition transcribe_gcs (gcs_uri : string) : M string :=
  modify (record (CRecognize gcs_uri)) ;;
  results <- (fun w => lift (recognize (svc w) gcs_uri) w) ;;
  transcripts <- lift (first_alternatives results) ;;
  ret (Py.strip (Py.join Py.nl transcripts)).

(** [f"{os.path.splitext(file_name)[0]}.txt"] *)
Definition processed_blob_name (file_name : string) : string :=
  fst (Py.splitext file_name) +:+ ".txt".

Definition speech_to_text (ce : CloudEvent) : M unit :=
  let file_name := name ce in
  let bucket_name := bucket ce in
  let ext := get_file_extension file_name in
  if negb (Py.str_in ext AUDIO_EXTS) then
    logger_info ("Skipping speech-to-text: unsupported file type '" +:+ ext +:+ "'")
  else
    let gcs_uri := "gs://" +:+ bucket_name +:+ "/" +:+ file_name in
    logger_info ("🎧 Transcribing " +:+ gcs_uri +:+ " via Speech-to-Text v2...") ;;
    try_except
      (t <- transcribe_gcs gcs_uri ;;
       let transcript := if String.eqb t EmptyString then "[No transcription available]" else t in
       (* Save transcript to bucket, same folder structure *)
       let tmp_path := "/tmp/" +:+ Py.basename (processed_blob_name file_name) in
       file_write tmp_path transcript ;;
       blob_upload_from_filename (OUTPUT_BUCKET, processed_blob_name file_name) tmp_path None ;;
       logger_info ("📝 Uploaded transcription to gs://" +:+ OUTPUT_BUCKET +:+ "/"
                    +:+ processed_blob_name file_name) ;;
       gcs_log ("Transcribed " +:+ gcs_uri +:+ " → gs://" +:+ OUTPUT_BUCKET +:+ "/"
                +:+ processed_blob_name file_name) "INFO" 5)
      (fun e =>
         logger_exception ("❌ Speech-to-text v2 failed for " +:+ gcs_uri +:+ ": " +:+ text e) ;;
         gcs_log ("Speech-to-text failed for " +:+ gcs_uri +:+ ": " +:+ text e) "ERROR" 5).

(** ** [analyze_discovery_material_ce] (lines 60-86)

    [init_clients()] builds the two client handles and is taken to have
    succeeded. *)

Definition analyze_discovery_material_ce (ce : CloudEvent) : M unit :=
  logger_info ("Called " +:+ Py.dq +:+ "analyze_discovery_material_ce" +:+ Py.dq +:+ " successfully") ;;
  let event_type := ce_type ce in
  if String.eqb event_type "google.cloud.storage.object.v1.finalized" then
    file_deleted <- handle_new_file_or_change ce ;;
    if file_deleted : bool then
      ret tt
    else
      try_except (validate_file ce)
        (fun e => logger_exception ("Error validating file : " +:+ text e)) ;;
      (* All these following functions attempt to do something based on the filetype *)
      speech_to_text ce ;;
      logger_info "To be continued! :)"
  else ret tt.

(** ** [get_file_path] (lines 152-159) *)

(** [file_name.split("/")[:-1]] joined by ["/"]. *)
Definition get_file_path (file_name : string) : string :=
  let parts := Py.split "/" file_name in
  let parts := removelast parts in
  Py.join "/" parts.

(** ** [create_folder] (lines 161-180) *)

(** [blob.upload_from_string(data)]: an unconditional write. *)
Definition blob_upload_from_string (k : string * string) (data : string) : M unit :=
  env_turn ;;
  modify (commit k data) ;;
  modify (record (CUpload k data None)).

(** Lines 168-170: the name of the folder object. *)
Definition folder_object_name (folder_name : string) : string :=
  let folder_name := Py.lstrip_char "/" folder_name in
  if negb (Py.endswith "/" folder_name) then folder_name +:+ "/" else folder_name.

Definition create_folder (bucket_name folder_name : string) : M unit :=
  let folder_name := folder_object_name folder_name in
  try_except
    ((* Upload empty content to simulate a folder *)
     blob_upload_from_string (bucket_name, folder_name) EmptyString ;;
     logger_info ("📁 Created folder '" +:+ folder_name +:+ "' in bucket '"
                  +:+ bucket_name +:+ "'."))
    (fun e =>
       logger_exception ("❌ Failed to create folder '" +:+ folder_name +:+ "' in bucket '"
                         +:+ bucket_name +:+ "': " +:+ text e)).

(** ** [init_clients] (lines 34-58)

    The two module globals, and the constructors [storage.Client()] and
    [speech.SpeechClient()] as black boxes that yield a handle (an object,
    hence true in a condition) or raise. *)

Module Clients.

Record handles := Handles { storage_client : option nat; speech_client : option nat }.

Record factory := Factory { new_storage : res nat; new_speech : res nat }.

(** The value: the result, the globals afterwards, the logger records. *)
Definition init_clients (f : factory) (g : handles)
    : res unit * handles * list (level * string) :=
  let step1 :=
    match storage_client g with
    | Some _ => (Ok tt, g, [])
    | None =>
        match new_storage f with
        | Ok c => (Ok tt, Handles (Some c) (speech_client g),
                   [(INFO, "Initialized storage client.")])
        | Raise e => (Raise e, g, [])
        end
    end in
  match step1 with
  | (Raise e, g1, l1) => (Raise e, g1, l1)
  | (Ok _, g1, l1) =>
      let step2 :=
        match speech_client g1 with
        | Some _ => (Ok tt, g1, l1)
        | None =>
            match new_speech f with
            | Ok c => (Ok tt, Handles (storage_client g1) (Some c),
                       l1 ++ [(INFO, "Initialized speech client.")])
            | Raise e => (Raise e, g1, l1)
            end
        end in
      match step2 with
      | (Raise e, g2, l2) => (Raise e, g2, l2)
      | (Ok _, g2, l2) =>
          let l3 := match storage_client g2 with
                    | None => l2 ++ [(ERROR, "Failed to initialize storage client!")]
                    | Some _ => l2
                    end in
          let l4 := match speech_client g2 with
                    | None => l3 ++ [(ERROR, "Failed to initialize speech client!")]
                    | Some _ => l3
                    end in
          (Ok tt, g2, l4)
      end
  end.

End Clients.

(** ** Vocabulary of the statements *)

(** [w'] is [w] after the external calls [d] and the logger records [l],
    with no object other than the audit log touched. *)
Definition extends (w w' : world) (d : list call) (l : list (level * string)) : Prop :=
  calls w' = calls w ++ d /\ logger w' = logger w ++ l /\
  now w' = now w /\ svc w' = svc w /\
  forall k, k <> LOG_KEY -> store w' !! k = store w !! k.

(** The storage calls of the read phase of one attempt of [gcs_log]
    (lines 295-305), with what it staged when it got through: the local
    buffer and [current_generation]. *)
Inductive read_phase (log_entry : string) : list call -> option (string * Z) -> Prop :=
| read_failed_exists :
    read_phase log_entry [] None
| read_absent :
    read_phase log_entry [CExists LOG_KEY false] (Some (log_entry, 0))
| read_failed_reload :
    read_phase log_entry [CExists LOG_KEY true] None
| read_failed_download g :
    read_phase log_entry [CExists LOG_KEY true; CReload LOG_KEY g] None
| read_present g c :
    read_phase log_entry
      [CExists LOG_KEY true; CReload LOG_KEY g; CDownload LOG_KEY LOCAL_LOG_PATH c]
      (Some (c +:+ log_entry, g)).

Definition precondition (current_generation : Z) : option Z :=
  if 0 <? current_generation then Some current_generation else None.

(** The calls and logger records of one attempt, and how it ends. *)
Inductive attempt_shape (log_entry : string) (attempt : Z) :
    list call -> list (level * string) -> ctl -> Prop :=
| attempt_committed r staged g :
    read_phase log_entry r (Some (staged, g)) ->
    attempt_shape log_entry attempt
      (r ++ [CUpload LOG_KEY staged (precondition g)])
      [(INFO, "🪵 Successfully appended to logs.txt on attempt " +:+ pretty attempt)]
      Return
| attempt_rejected r staged g :
    read_phase log_entry r (Some (staged, g)) ->
    attempt_shape log_entry attempt
      (r ++ [CRejected LOG_KEY staged (precondition g); CSleep (500 * attempt)])
      [(WARNING, "⚠️ Generation mismatch on attempt " +:+ pretty attempt +:+ ", retrying...")]
      Continue
| attempt_fault_retried r o :
    read_phase log_entry r o ->
    attempt_shape log_entry attempt
      (r ++ [CSleep (500 * attempt)])
      [(WARNING, "⚠️ Generation mismatch on attempt " +:+ pretty attempt +:+ ", retrying...")]
      Continue
| attempt_fault r o e :
    read_phase log_entry r o ->
    attempt_shape log_entry attempt r
      [(ERROR, "❌ Unexpected error while writing to logs.txt: " +:+ text e)]
      Return.

(** The calls and logger records of a whole call of [gcs_log] with
    [remaining] iterations left, and the number of attempts made. *)
Inductive loop_shape (log_entry : string) :
    nat -> Z -> list call -> list (level * string) -> nat -> Prop :=
| loop_exhausted attempt :
    loop_shape log_entry O attempt [] [] O
| loop_returned remaining attempt d l :
    attempt_shape log_entry attempt d l Return ->
    loop_shape log_entry (S remaining) attempt d l 1
| loop_continued remaining attempt d l ds ls n :
    attempt_shape log_entry attempt d l Continue ->
    loop_shape log_entry remaining (attempt + 1) ds ls n ->
    loop_shape log_entry (S remaining) attempt (d ++ ds) (l ++ ls) (S n).

(** The writes to the audit log that the store accepted, the writes sent
    (accepted or not), the bytes fetched, and the waits. *)
Definition accepted_log_writes (d : list call) : list (string * option Z) :=
  flat_map (fun c => match c with
                     | CUpload k s p => if bool_decide (k = LOG_KEY) then [(s, p)] else []
                     | _ => []
                     end) d.

Definition sent_log_writes (d : list call) : list string :=
  flat_map (fun c => match c with
                     | CUpload k s _ | CRejected k s _ =>
                         if bool_decide (k = LOG_KEY) then [s] else []
                     | _ => []
                     end) d.

Definition fetched_log_contents (d : list call) : list string :=
  flat_map (fun c => match c with
                     | CDownload k _ s => if bool_decide (k = LOG_KEY) then [s] else []
                     | _ => []
                     end) d.

(** A write carries bytes fetched from the store, or nothing, followed by
    the entry once. *)
Definition fresh_write (log_entry : string) (d : list call) (s : string) : Prop :=
  exists base, s = base +:+ log_entry /\
               (base = EmptyString \/ base ∈ fetched_log_contents d).

Definition sleeps (d : list call) : list Z :=
  flat_map (fun c => match c with CSleep ms => [ms] | _ => [] end) d.

Definition errors (l : list (level * string)) : list string :=
  flat_map (fun r => match fst r with ERROR => [snd r] | _ => [] end) l.

(** The calls made and the records logged by [m] from [w]: what was added
    to the two journals. *)
Definition new_calls {A} (m : M A) (w : world) : list call :=
  skipn (length (calls w)) (calls (exec m w)).
Definition new_records {A} (m : M A) (w : world) : list (level * string) :=
  skipn (length (logger w)) (logger (exec m w)).

(** The storage call that comes next does not fail. *)
Definition first_call_succeeds (w : world) : Prop :=
  match turns w with
  | [] => True
  | t :: _ => fault t = None
  end.

(** The folder policy as the claim words it, for every path and every
    world: an audit entry is appended exactly once. *)
Definition folder_policy_as_stated : Prop :=
  forall (ce : CloudEvent) (w : world),
    is_Some (store w !! (bucket ce, name ce)) ->
    first_call_succeeds w ->
    let m := handle_new_file_or_change ce in
    if Py.contains "/" (name ce)
    then result m w = Ok false /\ store (exec m w) = store w /\ new_calls m w = []
    else result m w = Ok true /\ store (exec m w) !! (bucket ce, name ce) = None /\
         length (accepted_log_writes (new_calls m w)) = 1%nat.

(** The deletions and the calls of the transcription service among the
    calls, in their order. *)
Definition landmarks (d : list call) : list call :=
  flat_map (fun c => match c with
                     | CDelete _ | CRecognize _ => [c]
                     | _ => []
                     end) d.

(** [w'] is [w] after the external calls [d] and the logger records [l];
    unlike [extends], any object may have changed. *)
Definition journal (w w' : world) (d : list call) (l : list (level * string)) : Prop :=
  calls w' = calls w ++ d /\ logger w' = logger w ++ l /\
  now w' = now w /\ svc w' = svc w.

(** The calls of one call of [gcs_log] for [message] at [severity], made at
    the time [timestamp]. *)
Definition audit_calls (timestamp severity message : string) (d : list call) : Prop :=
  exists l n, loop_shape (format_entry timestamp severity message) 5 1 d l n.

(** The body of the transcript that [speech_to_text] stores for what the
    recogniser returned (lines 109-112 and 134-135). *)
Definition transcript_body (transcripts : list string) : string :=
  let t := Py.strip (Py.join Py.nl transcripts) in
  if String.eqb t EmptyString then "[No transcription available]" else t.

(** [f"gs://{bucket_name}/{file_name}"] *)
Definition gcs_uri_of (ce : CloudEvent) : string :=
  "gs://" +:+ bucket ce +:+ "/" +:+ name ce.

(** The calls of [speech_to_text] on an audio object: the recogniser is
    called once, the transcript may be uploaded, and one audit entry is
    attempted, for the success or for the failure. *)
Inductive transcription_calls (timestamp : string) (ce : CloudEvent) : list call -> Prop :=
| transcribed body d :
    body <> EmptyString ->
    audit_calls timestamp "INFO"
      ("Transcribed " +:+ gcs_uri_of ce +:+ " → gs://" +:+ OUTPUT_BUCKET
       +:+ "/" +:+ processed_blob_name (name ce)) d ->
    transcription_calls timestamp ce
      (CRecognize (gcs_uri_of ce)
       :: CUpload (OUTPUT_BUCKET, processed_blob_name (name ce)) body None :: d)
| transcription_failed e d :
    audit_calls timestamp "ERROR"
      ("Speech-to-text failed for " +:+ gcs_uri_of ce +:+ ": " +:+ text e) d ->
    transcription_calls timestamp ce (CRecognize (gcs_uri_of ce) :: d).

(** The calls of [validate_file]: the download, the probe for a media
    file, and after an invalid verdict the delete and one audit entry. *)
Inductive validation_calls (timestamp : string) (ce : CloudEvent) : list call -> Prop :=
| validation_no_download :
    validation_calls timestamp ce []
| validation_kept c probe :
    probe = [] \/ probe = [CProbe ("/tmp/" +:+ Py.basename (name ce))] ->
    validation_calls timestamp ce
      (CDownload (bucket ce, name ce) ("/tmp/" +:+ Py.basename (name ce)) c :: probe)
| validation_deleted c probe message d :
    probe = [] \/ probe = [CProbe ("/tmp/" +:+ Py.basename (name ce))] ->
    audit_calls timestamp "ERROR"
      ("Deleted corrupted or invalid file " +:+ name ce +:+ ": " +:+ message +:+ Py.nl) d ->
    validation_calls timestamp ce
      (CDownload (bucket ce, name ce) ("/tmp/" +:+ Py.basename (name ce)) c :: probe
       ++ CDelete (bucket ce, name ce) :: d).





(** ** Sample worlds *)

Definition FINALIZED : string := "google.cloud.storage.object.v1.finalized".

(** Collaborators that find nothing wrong and hear two segments. *)
Definition calm : services :=
  Services (fun _ => Ok (0, EmptyString)) (fun _ => Ok tt) (fun _ => Ok tt) (fun _ => Ok tt)
           (fun _ => Ok [["hello"]; ["world"]]).

(** Empty buckets, no scratch file, an undisturbed environment. *)
Definition fresh : world :=
  World ∅ 1 ∅ "2025-01-01 00:00:00 UTC" [] calm [] [].

(** [w] with the object [k] holding [c]. *)
Definition holding (k : string * string) (c : string) (w : world) : world :=
  commit k c w.

Definition with_services (s : services) (w : world) : world :=
  World (store w) (next_generation w) (fs w) (now w) (turns w) s (calls w) (logger w).

Definition undisturbed : turn := Turn [] None.

(** The probe exits with status 1 and a diagnostic; the recogniser does not
    find the audio. *)
Definition corrupt_media : services :=
  Services (fun _ => Ok (1, "moov atom not found")) (fun _ => Ok tt) (fun _ => Ok tt)
           (fun _ => Ok tt)
           (fun _ => Raise (Exn NotFound "404 audio object not found")).

(** The probe does not answer within the 30 seconds. *)
Definition probe_times_out : services :=
  Services (fun _ => Raise (Exn TimeoutExpired "Command 'ffprobe' timed out after 30 seconds"))
           (fun _ => Ok tt) (fun _ => Ok tt) (fun _ => Ok tt)
           (fun _ => Ok [["hello"]; ["world"]]).

(** The probe cannot be started. *)
Definition probe_missing : services :=
  Services (fun _ => Raise (Exn OSError "[Errno 2] No such file or directory: 'ffprobe'"))
           (fun _ => Ok tt) (fun _ => Ok tt) (fun _ => Ok tt)
           (fun _ => Ok [["hello"]; ["world"]]).

(** An attempt of [gcs_log] on an existing log whose write is overtaken:
    [exists], [reload] and [download] run undisturbed, and another
    invocation commits [entry] just before the upload. *)
Definition overtaken (entry : string) : list turn :=
  [undisturbed; undisturbed; undisturbed; Turn [entry] None].

(** An existing log, and a writer that is overtaken on each of five
    attempts. *)
Definition contended : world :=
  set_turns (overtaken "b1" ++ overtaken "b2" ++ overtaken "b3" ++ overtaken "b4"
             ++ overtaken "b5")
            (holding LOG_KEY "old" fresh).

(** No log object yet; another invocation creates it between this call's
    [exists] and its upload. *)
Definition racing_creation (entry : string) : world :=
  set_turns [undisturbed; Turn [entry] None] fresh.

(** The storage layer fails the first call of [gcs_log] after the delete
    went through. *)
Definition log_unreachable : world :=
  set_turns [undisturbed; Turn [] (Some (Exn OtherError "503 service unavailable"))]
            (holding ("intake", "report.pdf") "%PDF" fresh).

(** A media file on the local disk. *)
Definition clip_on_disk : world := set_fs (insert "/tmp/clip.mp4" "....") fresh.


(** * Properties *)

(** ** Paths and extensions *)

Section Paths.

Lemma append_cons (a : ascii) (s t : string) :
  String a s +:+ t = String a (s +:+ t).
Proof. reflexivity. Qed.


Lemma take_drop (n : nat) (s : string) : Py.take n s +:+ Py.drop n s = s.
Proof.
  revert s. induction n as [|n IH]; intros [|a s]; simpl; try reflexivity.
  rewrite append_cons. now rewrite IH.
Qed.

Lemma rfind_lower_bound (c : ascii) (s : string) : -1 <= Py.rfind c s.
Proof.
  induction s as [|a s IH]; simpl; [lia|].
  destruct (0 <=? Py.rfind c s) eqn:E; [lia|].
  destruct (Ascii.eqb a c); lia.
Qed.

(** The suffix that starts at the last occurrence of [c] is [c] followed by
    a string without [c]. *)
Lemma rfind_drop (c : ascii) (s : string) :
  0 <= Py.rfind c s ->
  exists r, Py.drop (Z.to_nat (Py.rfind c s)) s = String c r /\ Py.contains c r = false.
Proof.
  induction s as [|a s IH]; simpl; [lia|].
  destruct (0 <=? Py.rfind c s) eqn:E.
  - intros _. apply Z.leb_le in E. destruct (IH E) as [r [Hr Hc]].
    exists r. split; [|exact Hc].
    replace (Z.to_nat (Py.rfind c s + 1)) with (S (Z.to_nat (Py.rfind c s))) by lia.
    exact Hr.
  - destruct (Ascii.eqb a c) eqn:Ea; [|lia]. intros _.
    apply Ascii.eqb_eq in Ea. subst a. exists s. split; [reflexivity|].
    apply Z.leb_gt in E. clear IH.
    induction s as [|b s IHs]; simpl in *; [reflexivity|].
    destruct (0 <=? Py.rfind c s) eqn:E'; [apply Z.leb_le in E'; lia|].
    destruct (Ascii.eqb b c); [lia|]. simpl. apply IHs. apply Z.leb_gt in E'. lia.
Qed.

Lemma rfind_absent (c : ascii) (s : string) :
  Py.rfind c s < 0 -> Py.contains c s = false.
Proof.
  induction s as [|b s IHs]; simpl; [reflexivity|].
  destruct (0 <=? Py.rfind c s) eqn:E'; [apply Z.leb_le in E'; lia|].
  destruct (Ascii.eqb b c); [lia|]. intros _. simpl. apply IHs.
  apply Z.leb_gt in E'. lia.
Qed.

(** Nothing occurs after the last occurrence. *)
Lemma contains_drop_after (c : ascii) (s : string) (n : nat) :
  Py.rfind c s < Z.of_nat n -> Py.contains c (Py.drop n s) = false.
Proof.
  revert n. induction s as [|a s IH]; intros n; simpl.
  - destruct n; reflexivity.
  - destruct (0 <=? Py.rfind c s) eqn:E.
    + apply Z.leb_le in E. intros H. destruct n as [|n]; [lia|].
      simpl. apply IH. lia.
    + apply Z.leb_gt in E. destruct (Ascii.eqb a c) eqn:Ea; intros H.
      * destruct n as [|n]; [lia|]. simpl. apply IH. lia.
      * destruct n as [|n]; simpl.
        -- rewrite Ea. simpl. apply rfind_absent. exact E.
        -- apply IH. lia.
Qed.


(** The extension is empty, or a dot followed by characters among which
    there is neither a dot nor a separator. *)
Lemma splitext_extension (p : string) :
  snd (Py.splitext p) = EmptyString \/
  exists r, snd (Py.splitext p) = String "." r
            /\ Py.contains "." r = false /\ Py.contains "/" r = false.
Proof.
  unfold Py.splitext.
  destruct (Py.rfind "/" p <? Py.rfind "." p) eqn:E; [|now left].
  destruct (Py.non_dot_before _ _ _); [|now left].
  right. simpl. apply Z.ltb_lt in E.
  pose proof (rfind_lower_bound "/" p) as Hs.
  destruct (rfind_drop "." p) as [r [Hr Hc]]; [lia|].
  exists r. unfold Py.slice_from. split; [exact Hr|]. split; [exact Hc|].
  assert (H : Py.contains "/" (Py.drop (Z.to_nat (Py.rfind "." p)) p) = false)
    by (apply contains_drop_after; lia).
  rewrite Hr in H. simpl in H. exact H.
Qed.

End Paths.

(** ** The journals of a computation *)

(** Closes a goal [extends w w' d l] from the [extends] facts of the steps
    in between. *)
Ltac journal :=
  repeat match goal with
         | H : extends _ _ _ _ |- _ => destruct H as (? & ? & ? & ? & ?)
         end;
  unfold extends; simpl;
  repeat match goal with
         | H : calls _ = _ |- _ => rewrite H; clear H
         | H : logger _ = _ |- _ => rewrite H; clear H
         | H : now _ = _ |- _ => rewrite H; clear H
         | H : svc _ = _ |- _ => rewrite H; clear H
         end;
  rewrite <- ?app_assoc, ?app_nil_r; simpl;
  repeat apply conj; auto;
  let k := fresh "k" in
  let Hk := fresh "Hk" in
  intros k Hk;
  repeat (simpl;
          first [ rewrite lookup_insert_ne by congruence
                | match goal with
                  | H : forall k, k <> LOG_KEY -> store _ !! k = _ |- _ =>
                      rewrite (H k Hk); clear H
                  end ]);
  reflexivity.

Section Journals.

Lemma extends_refl (w : world) : extends w w [] [].
Proof. journal. Qed.

Lemma extends_trans (w1 w2 w3 : world) d1 l1 d2 l2 :
  extends w1 w2 d1 l1 -> extends w2 w3 d2 l2 ->
  extends w1 w3 (d1 ++ d2) (l1 ++ l2).
Proof. intros E1 E2. journal. Qed.

Lemma extends_new_calls {A} (m : M A) (w : world) d l :
  extends w (exec m w) d l -> new_calls m w = d /\ new_records m w = l.
Proof.
  intros (C & L & _). unfold new_calls, new_records. rewrite C, L.
  split; apply drop_app_length.
Qed.

(** Other invocations touch the audit log only. *)
Lemma others_keep_journals (es : list string) (w : world) :
  extends w (fold_left other_append es w) [] [] /\
  fs (fold_left other_append es w) = fs w /\
  turns (fold_left other_append es w) = turns w.
Proof.
  revert w. induction es as [|e es IH]; intros w; simpl.
  - split; [apply extends_refl | auto].
  - destruct (IH (other_append w e)) as (E & F & T).
    rewrite F, T. split; [|auto]. journal.
Qed.

Lemma env_turn_spec (w w' : world) (r : res unit) :
  env_turn w = (r, w') -> extends w w' [] [] /\ fs w' = fs w.
Proof.
  unfold env_turn. destruct (turns w) as [|t ts].
  - intros [= <- <-]. split; [apply extends_refl | reflexivity].
  - destruct (others_keep_journals (others t) (set_turns ts w)) as (E & F & _).
    destruct (fault t); intros [= <- <-]; (split; [journal | exact F]).
Qed.

Lemma env_turn_quiet (w : world) : turns w = [] -> env_turn w = (Ok tt, w).
Proof. unfold env_turn. now intros ->. Qed.

Lemma blob_exists_spec (k : string * string) (w w' : world) (r : res bool) :
  blob_exists k w = (r, w') ->
  fs w' = fs w /\
  match r with
  | Ok b => extends w w' [CExists k b] []
  | Raise _ => extends w w' [] []
  end.
Proof.
  unfold blob_exists, bind, gets, modify, ret.
  destruct (env_turn w) as [[[]|e] w1] eqn:E; apply env_turn_spec in E as [E F];
    intros [= <- <-]; simpl; (split; [exact F|]); journal.
Qed.

Lemma blob_reload_spec (k : string * string) (w w' : world) (r : res Z) :
  blob_reload k w = (r, w') ->
  fs w' = fs w /\
  match r with
  | Ok g => extends w w' [CReload k g] []
  | Raise _ => extends w w' [] []
  end.
Proof.
  unfold blob_reload, bind, gets, modify, ret, raise.
  destruct (env_turn w) as [[[]|e] w1] eqn:E; apply env_turn_spec in E as [E F].
  - destruct (store w1 !! k) as [b|]; intros [= <- <-]; simpl; (split; [exact F|]);
      journal.
  - intros [= <- <-]. split; [exact F | exact E].
Qed.

Lemma blob_download_spec (k : string * string) (path : string) (w w' : world) (r : res unit) :
  blob_download_to_filename k path w = (r, w') ->
  match r with
  | Ok _ => exists c, extends w w' [CDownload k path c] [] /\ fs w' = <[path := c]> (fs w)
  | Raise _ => extends w w' [] [] /\ fs w' = fs w
  end.
Proof.
  unfold blob_download_to_filename, bind, gets, modify, ret, raise.
  destruct (env_turn w) as [[[]|e] w1] eqn:E; apply env_turn_spec in E as [E F].
  - destruct (store w1 !! k) as [b|]; intros [= <- <-]; simpl.
    + exists (content b). rewrite F. split; [|reflexivity]. journal.
    + split; [exact E | exact F].
  - intros [= <- <-]. split; [exact E | exact F].
Qed.

(** A write to the audit log. *)
Lemma blob_upload_spec (path : string) (pre : option Z) (w w' : world) (r : res unit) :
  blob_upload_from_filename LOG_KEY path pre w = (r, w') ->
  fs w' = fs w /\
  match r with
  | Ok _ => exists c, fs w !! path = Some c /\ extends w w' [CUpload LOG_KEY c pre] []
  | Raise e =>
      extends w w' [] [] \/
      exists c, fs w !! path = Some c /\ extends w w' [CRejected LOG_KEY c pre] [] /\
                kind e = PreconditionFailed
  end.
Proof.
  unfold blob_upload_from_filename, bind, gets, modify, ret, raise.
  destruct (env_turn w) as [[[]|e] w1] eqn:E; apply env_turn_spec in E as [E F].
  - rewrite <- F. destruct (fs w1 !! path) as [c|] eqn:Hc.
    + destruct pre as [g|].
      * destruct (generation_of w1 LOG_KEY =? g); intros [= <- <-]; simpl;
          (split; [reflexivity|]).
        -- exists c. split; [reflexivity|]. journal.
        -- right. exists c. split; [reflexivity|]. split; [|reflexivity]. journal.
      * intros [= <- <-]; simpl. split; [reflexivity|].
        exists c. split; [reflexivity|]. journal.
    + intros [= <- <-]. split; [reflexivity|]. left. exact E.
  - intros [= <- <-]. split; [exact F|]. left. exact E.
Qed.

End Journals.

(** ** The audit logger, attempt by attempt *)

Section AuditLog.

Variable log_entry : string.

Lemma gcs_log_stage_spec (w w' : world) (r : res Z) :
  gcs_log_stage log_entry w = (r, w') ->
  exists d, extends w w' d [] /\
    match r with
    | Ok g => exists staged, read_phase log_entry d (Some (staged, g)) /\
                             fs w' !! LOCAL_LOG_PATH = Some staged
    | Raise _ => read_phase log_entry d None
    end.
Proof.
  unfold gcs_log_stage, bind.
  destruct (blob_exists LOG_KEY w) as [[b|e] w1] eqn:E1;
    apply blob_exists_spec in E1 as [F1 E1].
  2:{ intros [= <- <-]. exists []. split; [exact E1 | constructor]. }
  destruct b.
  - destruct (blob_reload LOG_KEY w1) as [[g|e] w2] eqn:E2;
      apply blob_reload_spec in E2 as [F2 E2].
    2:{ intros [= <- <-]. exists [CExists LOG_KEY true].
        split; [journal|constructor]. }
    destruct (blob_download_to_filename LOG_KEY LOCAL_LOG_PATH w2) as [[[]|e] w3] eqn:E3;
      apply blob_download_spec in E3.
    + destruct E3 as (c & E3 & F3). unfold file_append, modify, ret. simpl.
      intros [= <- <-].
      exists [CExists LOG_KEY true; CReload LOG_KEY g; CDownload LOG_KEY LOCAL_LOG_PATH c].
      split.
      * journal.
      * exists (c +:+ log_entry). split; [constructor|].
        simpl. rewrite F3, !lookup_insert_eq. reflexivity.
    + destruct E3 as [E3 F3]. intros [= <- <-].
      exists [CExists LOG_KEY true; CReload LOG_KEY g]. split; [journal|constructor].
  - unfold file_write, file_append, modify, ret. simpl. intros [= <- <-].
    exists [CExists LOG_KEY false]. split.
    + journal.
    + exists log_entry. split; [constructor|].
      simpl. rewrite !lookup_insert_eq. reflexivity.
Qed.

Lemma gcs_log_try_spec (attempt : Z) (w : world) :
  exists c w' d l,
    gcs_log_try log_entry attempt w = (Ok c, w') /\
    extends w w' d l /\ attempt_shape log_entry attempt d l c.
Proof.
  unfold gcs_log_try, try_except, bind.
  destruct (gcs_log_stage log_entry w) as [[g|e] w1] eqn:E1;
    apply gcs_log_stage_spec in E1 as (d1 & E1 & R1).
  - destruct R1 as (staged & R1 & F1).
    unfold gcs_log_upload. fold (precondition g).
    destruct (blob_upload_from_filename LOG_KEY LOCAL_LOG_PATH (precondition g) w1)
      as [[[]|e] w2] eqn:E2; apply blob_upload_spec in E2 as [F2 E2].
    + destruct E2 as (c & Hc & E2). rewrite F1 in Hc. injection Hc as <-.
      unfold logger_info, modify, ret. simpl.
      eexists _, _, _, _. split; [reflexivity|]. split.
      2:{ apply attempt_committed. exact R1. }
      journal.
    + destruct (is_kind PreconditionFailed e) eqn:K.
      * unfold logger_warning, time_sleep, modify, ret. simpl.
        destruct E2 as [E2|(c & Hc & E2 & _)];
          (eexists _, _, _, _; split; [reflexivity|]).
        -- split.
           2:{ apply attempt_fault_retried with (o := Some (staged, g)). exact R1. }
           journal.
        -- rewrite F1 in Hc. injection Hc as <-. split.
           2:{ apply attempt_rejected. exact R1. }
           journal.
      * unfold logger_exception, modify, ret. simpl.
        destruct E2 as [E2|(c & Hc & E2 & K')].
        2:{ unfold is_kind in K. rewrite K' in K. discriminate. }
        eexists _, _, _, _. split; [reflexivity|]. split.
        2:{ apply attempt_fault with (o := Some (staged, g)). exact R1. }
        journal.
  - destruct (is_kind PreconditionFailed e) eqn:K.
    + unfold logger_warning, time_sleep, modify, ret. simpl.
      eexists _, _, _, _. split; [reflexivity|]. split.
      2:{ apply attempt_fault_retried with (o := None). exact R1. }
      journal.
    + unfold logger_exception, modify, ret. simpl.
      eexists _, _, _, _. split; [reflexivity|]. split.
      2:{ apply attempt_fault with (o := None). exact R1. }
      journal.
Qed.

(** The [logger.error] after the [try] statement is never reached: the
    [try] statement always ends in [return] or [continue]. *)
Lemma attempt_shape_not_normal (attempt : Z) d l c :
  attempt_shape log_entry attempt d l c -> c <> Normal.
Proof. destruct 1; discriminate. Qed.

Lemma gcs_log_body_spec (attempt : Z) (w : world) :
  exists c w' d l,
    gcs_log_body log_entry attempt w = (Ok c, w') /\
    extends w w' d l /\ attempt_shape log_entry attempt d l c.
Proof.
  destruct (gcs_log_try_spec attempt w) as (c & w' & d & l & E & X & A).
  exists c, w', d, l. unfold gcs_log_body, bind. rewrite E.
  pose proof (attempt_shape_not_normal _ _ _ _ A).
  destruct c; [congruence| |]; auto.
Qed.

Lemma gcs_log_loop_spec (remaining : nat) (attempt : Z) (w : world) :
  exists w' d l n,
    gcs_log_loop log_entry remaining attempt w = (Ok tt, w') /\
    extends w w' d l /\ loop_shape log_entry remaining attempt d l n.
Proof.
  revert attempt w. induction remaining as [|r IH]; intros attempt w; simpl.
  - exists w, [], [], O. split; [reflexivity|]. split; [apply extends_refl | constructor].
  - destruct (gcs_log_body_spec attempt w) as (c & w1 & d & l & E & X & A).
    unfold bind. rewrite E.
    pose proof (attempt_shape_not_normal _ _ _ _ A).
    destruct c; [congruence| |].
    + exists w1, d, l, 1%nat. split; [reflexivity|]. split; [exact X|].
      now apply loop_returned.
    + destruct (IH (attempt + 1) w1) as (w2 & ds & ls & n & E2 & X2 & L2).
      exists w2, (d ++ ds), (l ++ ls), (S n). split; [exact E2|].
      split; [exact (extends_trans _ _ _ _ _ _ _ X X2)|].
      now apply loop_continued.
Qed.

End AuditLog.

Lemma gcs_log_spec (message severity : string) (max_retries : Z) (w : world) :
  exists w' d l n,
    gcs_log message severity max_retries w = (Ok tt, w') /\
    extends w w' d l /\
    loop_shape (format_entry (now w) severity message) (Z.to_nat max_retries) 1 d l n.
Proof.
  unfold gcs_log, bind, gets.
  apply gcs_log_loop_spec.
Qed.

(** ** What the shape of a call entails *)

Section Shapes.

Variable log_entry : string.

Lemma read_phase_no_write d o :
  read_phase log_entry d o ->
  accepted_log_writes d = [] /\ sent_log_writes d = [] /\ sleeps d = [].
Proof. destruct 1; simpl; auto. Qed.

Lemma read_phase_staged d staged g :
  read_phase log_entry d (Some (staged, g)) -> fresh_write log_entry d staged.
Proof.
  inversion 1; subst.
  - exists EmptyString. split; [reflexivity | now left].
  - exists c. split; [reflexivity|]. right. simpl. apply list_elem_of_singleton.
    reflexivity.
Qed.

Lemma fresh_write_weaken d d1 d2 s :
  fresh_write log_entry d s -> fresh_write log_entry (d1 ++ d ++ d2) s.
Proof.
  intros (base & E & [H|H]); exists base; (split; [exact E|]); [now left|].
  right. unfold fetched_log_contents in *. rewrite !flat_map_app.
  rewrite !elem_of_app. auto.
Qed.

Lemma attempt_shape_facts attempt d l c :
  attempt_shape log_entry attempt d l c ->
  (length (accepted_log_writes d) <= 1)%nat /\
  (c = Continue -> accepted_log_writes d = []) /\
  (length (sent_log_writes d) <= 1)%nat /\
  Forall (fresh_write log_entry d) (sent_log_writes d) /\
  sleeps d = (match c with Continue => [500 * attempt] | _ => [] end) /\
  Forall (fun m => exists t, m = "❌ Unexpected error while writing to logs.txt: " +:+ t)
         (errors l).
Proof.
  destruct 1 as [r staged g R|r staged g R|r o R|r o e R];
    pose proof (read_phase_no_write _ _ R) as (A & S & Z);
    unfold accepted_log_writes, sent_log_writes, sleeps in *;
    rewrite ?flat_map_app, ?A, ?S, ?Z; simpl;
    repeat apply conj; auto; try lia; try discriminate.
  - constructor; [|constructor].
    apply (fresh_write_weaken r [] [_]), (read_phase_staged _ _ _ R).
  - constructor; [|constructor].
    apply (fresh_write_weaken r [] [_; _]), (read_phase_staged _ _ _ R).
  - constructor; [|constructor]. now exists (text e).
Qed.

Lemma loop_shape_facts remaining attempt d l n :
  loop_shape log_entry remaining attempt d l n ->
  (n <= remaining)%nat /\
  (length (accepted_log_writes d) <= 1)%nat /\
  (length (sent_log_writes d) <= n)%nat /\
  Forall (fresh_write log_entry d) (sent_log_writes d) /\
  (exists j, (j <= n)%nat /\ sleeps d = map (fun i => 500 * i) (seqZ attempt (Z.of_nat j))) /\
  Forall (fun m => exists t, m = "❌ Unexpected error while writing to logs.txt: " +:+ t)
         (errors l).
Proof.
  induction 1 as [a|r a d l A|r a d l ds ls n A L IH].
  - simpl. repeat apply conj; auto. exists O. split; [lia|reflexivity].
  - destruct (attempt_shape_facts _ _ _ _ A) as (A1 & _ & A3 & A4 & A5 & A6).
    repeat apply conj; auto; try lia. exists O. split; [lia|]. rewrite A5. reflexivity.
  - destruct (attempt_shape_facts _ _ _ _ A) as (A1 & A2 & A3 & A4 & A5 & A6).
    destruct IH as (I0 & I1 & I3 & I4 & (j & Hj & I5) & I6).
    unfold accepted_log_writes, sent_log_writes, sleeps, errors in *.
    rewrite !flat_map_app, !length_app. rewrite (A2 eq_refl). simpl.
    repeat apply conj; try lia.
    + apply Forall_app. split.
      * eapply Forall_impl; [exact A4|]. intros s Hs.
        apply (fresh_write_weaken d [] ds) in Hs. exact Hs.
      * eapply Forall_impl; [exact I4|]. intros s Hs.
        apply (fresh_write_weaken ds d []) in Hs. now rewrite app_nil_r in Hs.
    + exists (S j). split; [lia|]. rewrite A5, I5.
      replace (Z.of_nat (S j)) with (Z.succ (Z.of_nat j)) by lia.
      rewrite (seqZ_cons a) by lia. simpl.
      replace (Z.succ a) with (a + 1) by lia.
      replace (Z.pred (Z.succ (Z.of_nat j))) with (Z.of_nat j) by lia. reflexivity.
    + apply Forall_app. split; assumption.
Qed.

End Shapes.

(** ** The audit logger: the claims *)

Lemma gcs_log_journals (message severity : string) (max_retries : Z) (w : world) :
  let m := gcs_log message severity max_retries in
  result m w = Ok tt /\
  exists n,
    extends w (exec m w) (new_calls m w) (new_records m w) /\
    loop_shape (format_entry (now w) severity message) (Z.to_nat max_retries) 1
               (new_calls m w) (new_records m w) n.
Proof.
  intros m. destruct (gcs_log_spec message severity max_retries w)
    as (w' & d & l & n & E & X & L).
  assert (Hx : exec m w = w') by (unfold exec, m; now rewrite E).
  split; [unfold result, m; now rewrite E|].
  exists n. rewrite <- Hx in X.
  destruct (extends_new_calls m w d l X) as [-> ->]. auto.
Qed.

(** X23: The call never raises, whatever the store and the environment do. *)
Lemma gcs_log_never_raises (message severity : string) (max_retries : Z) (w : world) :
  result (gcs_log message severity max_retries) w = Ok tt.
Proof. apply gcs_log_journals. Qed.

(** X24: At most [max_retries] attempts, each followed, when it is to be
    retried, by a wait of [500 * attempt] milliseconds. *)
Lemma gcs_log_bounded_backoff (message severity : string) (max_retries : Z) (w : world) :
  let d := new_calls (gcs_log message severity max_retries) w in
  (length (sent_log_writes d) <= Z.to_nat max_retries)%nat /\
  exists j, (j <= Z.to_nat max_retries)%nat /\
            sleeps d = map (fun i => 500 * i) (seqZ 1 (Z.of_nat j)).
Proof.
  destruct (gcs_log_journals message severity max_retries w) as (_ & n & _ & L).
  apply loop_shape_facts in L as (B & _ & S & _ & (j & Hj & Hs) & _).
  split; [simpl; lia|]. exists j. split; [lia | exact Hs].
Qed.

(** X25: The record "Failed to append log after multiple retries" is never
    logged: every [ERROR] record of the call is an "Unexpected error". *)
Lemma gcs_log_failure_trace_unreachable (message severity : string) (max_retries : Z)
    (w : world) :
  "❌ Failed to append log after multiple retries due to concurrent writes."
  ∉ errors (new_records (gcs_log message severity max_retries) w).
Proof.
  destruct (gcs_log_journals message severity max_retries w) as (_ & n & _ & L).
  apply loop_shape_facts in L as (_ & _ & _ & _ & _ & E).
  intros H. rewrite Forall_forall in E. destruct (E _ H) as (t & Ht).
  cbv [String.append] in Ht. discriminate Ht.
Qed.


(** C5 at the failing input: a call with [max_retries = 5] on an existing
    log, overtaken by another writer on each attempt.  Five writes are sent
    and rejected, the waits are 0.5 s, 1 s, ..., 2.5 s, the call returns
    without raising, and the logger holds five warnings and no error
    record. *)
Theorem gcs_log_exhaustion_leaves_no_error_trace :
  let m := gcs_log "probe" "INFO" 5 in
  result m contended = Ok tt /\
  length (sent_log_writes (new_calls m contended)) = 5%nat /\
  accepted_log_writes (new_calls m contended) = [] /\
  sleeps (new_calls m contended) = [500; 1000; 1500; 2000; 2500] /\
  map fst (new_records m contended) = [WARNING; WARNING; WARNING; WARNING; WARNING] /\
  errors (new_records m contended) = [] /\
  content_of (exec m contended) LOG_KEY = "oldb1b2b3b4b5".
Proof. vm_compute. repeat split; reflexivity. Qed.

(** An undisturbed call with at least one attempt commits on its first
    attempt. *)
Lemma gcs_log_quiet_run (message severity : string) (max_retries : Z) (w : world) :
  turns w = [] -> 0 < max_retries ->
  let log_entry := format_entry (now w) severity message in
  exists w',
    gcs_log message severity max_retries w = (Ok tt, w') /\
    store w' = store (other_append w log_entry) /\
    next_generation w' = next_generation (other_append w log_entry) /\
    turns w' = [] /\
    calls w' = calls w ++
      (if bool_decide (is_Some (store w !! LOG_KEY))
       then [CExists LOG_KEY true; CReload LOG_KEY (generation_of w LOG_KEY);
             CDownload LOG_KEY LOCAL_LOG_PATH (content_of w LOG_KEY)]
       else [CExists LOG_KEY false])
      ++ [CUpload LOG_KEY (content_of w LOG_KEY +:+ log_entry)
                  (precondition (generation_of w LOG_KEY))].
Proof.
  intros Hq Hn log_entry.
  destruct (Z.to_nat max_retries) as [|r] eqn:Hr; [lia|].
  unfold gcs_log, bind, gets. rewrite Hr. simpl.
  unfold gcs_log_body, gcs_log_try, try_except, bind, gcs_log_stage, bind,
    blob_exists, bind, gets, modify, ret.
  rewrite (env_turn_quiet w Hq). simpl.
  unfold other_append, content_of, generation_of.
  destruct (store w !! LOG_KEY) as [b|] eqn:Hb; simpl.
  - unfold blob_reload, blob_download_to_filename, gcs_log_upload,
      blob_upload_from_filename, file_append, logger_info, bind, gets, modify, ret,
      raise.
    rewrite (env_turn_quiet (record _ w)) by exact Hq. simpl.
    rewrite Hb. simpl.
    rewrite (env_turn_quiet (record _ (record _ w))) by exact Hq. simpl.
    rewrite Hb. simpl.
    rewrite (env_turn_quiet (set_fs _ (record _ (set_fs _ (record _ (record _ w))))))
      by exact Hq.
    simpl. rewrite !lookup_insert_eq. simpl.
    fold (precondition (generation b)).
    unfold generation_of. simpl. rewrite Hb.
    destruct (precondition (generation b)) as [g|] eqn:Hp; simpl.
    + unfold precondition in Hp. destruct (0 <? generation b); [|discriminate].
      injection Hp as <-. rewrite Z.eqb_refl. simpl.
      eexists. split; [reflexivity|]. simpl. rewrite <- !app_assoc. auto.
    + eexists. split; [reflexivity|]. simpl. rewrite <- !app_assoc. auto.
  - unfold gcs_log_upload, blob_upload_from_filename, file_write, file_append,
      logger_info, bind, gets, modify, ret, raise. simpl.
    rewrite (env_turn_quiet (set_fs _ (set_fs _ (record _ w)))) by exact Hq.
    simpl. rewrite !lookup_insert_eq. simpl.
    eexists. split; [reflexivity|]. simpl. rewrite <- !app_assoc. auto.
Qed.

(** So an undisturbed call does to the store what [other_append] does,
    which is why the environment's [others] stand for calls of [gcs_log] by
    other invocations; and it adds its entry to the log exactly once. *)
Lemma gcs_log_quiet (message severity : string) (max_retries : Z) (w : world) :
  turns w = [] -> 0 < max_retries ->
  let m := gcs_log message severity max_retries in
  let log_entry := format_entry (now w) severity message in
  result m w = Ok tt /\
  store (exec m w) = store (other_append w log_entry) /\
  content_of (exec m w) LOG_KEY = content_of w LOG_KEY +:+ log_entry /\
  turns (exec m w) = [] /\
  accepted_log_writes (new_calls m w)
  = [(content_of w LOG_KEY +:+ log_entry, precondition (generation_of w LOG_KEY))].
Proof.
  intros Hq Hn m log_entry.
  destruct (gcs_log_quiet_run message severity max_retries w Hq Hn)
    as (w' & E & S & G & T & C).
  unfold new_calls, result, exec, m. rewrite E. simpl.
  split; [reflexivity|]. split; [exact S|]. split.
  { unfold content_of at 1. rewrite S. unfold other_append. simpl.
    now rewrite lookup_insert_eq. }
  split; [exact T|].
  rewrite C, drop_app_length.
  unfold accepted_log_writes. rewrite flat_map_app.
  destruct (bool_decide (is_Some (store w !! LOG_KEY))); reflexivity.
Qed.

(** C1 at the failing input: two calls race to create the log.  Writer B,
    alone on the empty bucket, commits its entry.  Writer A checked
    [exists] before B's commit and uploads after it: its write carries no
    generation precondition although the object exists by then, the store
    accepts it, and the log holds A's entry only; B's committed entry is
    gone. *)
Theorem creation_race_drops_committed_entry :
  let eA := format_entry (now fresh) "INFO" "A" in
  let eB := format_entry (now fresh) "INFO" "B" in
  let b := gcs_log "B" "INFO" 5 in
  let a := gcs_log "A" "INFO" 5 in
  (* B's call, undisturbed *)
  result b fresh = Ok tt /\
  store (exec b fresh) !! LOG_KEY = Some (Blob 1 eB) /\
  store (other_append fresh eB) !! LOG_KEY = Some (Blob 1 eB) /\
  (* A's call, with B's commit between its [exists] and its upload *)
  result a (racing_creation eB) = Ok tt /\
  new_calls a (racing_creation eB) = [CExists LOG_KEY false; CUpload LOG_KEY eA None] /\
  store (exec a (racing_creation eB)) !! LOG_KEY = Some (Blob 2 eA) /\
  String.index 0 eB (content_of (exec a (racing_creation eB)) LOG_KEY) = None.
Proof. vm_compute. repeat split; reflexivity. Qed.

(** ** The folder policy *)

Lemma root_object_is_not_the_log (bucket_name file_name : string) :
  Py.contains "/" file_name = false -> (bucket_name, file_name) <> LOG_KEY.
Proof. intros H [= _ ->]. vm_compute in H. discriminate. Qed.

Lemma blob_delete_ok (k : string * string) (w : world) :
  first_call_succeeds w -> is_Some (store w !! k) -> k <> LOG_KEY ->
  exists w1,
    blob_delete k w = (Ok tt, w1) /\
    calls w1 = calls w ++ [CDelete k] /\ logger w1 = logger w /\ now w1 = now w /\
    store w1 !! k = None /\
    (turns w = [] -> turns w1 = [] /\ store w1 = delete k (store w)).
Proof.
  intros Hf [b Hb] Hk. unfold blob_delete, bind, gets, modify, ret, raise.
  destruct (env_turn w) as [r w0] eqn:E.
  assert (Hr : r = Ok tt).
  { unfold env_turn, first_call_succeeds in *. destruct (turns w) as [|t ts].
    - now injection E as <- _.
    - rewrite Hf in E. now injection E as <- _. }
  subst r. pose proof (env_turn_spec _ _ _ E) as [(C & L & N & S & Fr) F].
  rewrite (Fr k Hk), Hb. simpl. eexists. split; [reflexivity|]. simpl.
  rewrite C, L, N, !app_nil_r. repeat apply conj; auto.
  - apply lookup_delete_eq.
  - intros Hq. rewrite (env_turn_quiet w Hq) in E. injection E as <-.
    split; [exact Hq | reflexivity].
Qed.

(** C6, amended: an object at the bucket root is deleted and the enforcer
    returns [true] after one call of [gcs_log] describing the deletion,
    provided the delete itself succeeds; that call commits its entry at most
    once, and exactly once in an undisturbed environment.  An object inside
    a folder makes the enforcer return [false] with no storage call at
    all. *)
Theorem folder_policy_enforced (ce : CloudEvent) (w : world) :
  let m := handle_new_file_or_change ce in
  let k := (bucket ce, name ce) in
  let log_entry :=
    format_entry (now w) "INFO"
      ("Deleted disallowed file " +:+ name ce +:+ " (no files allowed at bucket root)") in
  (Py.contains "/" (name ce) = true ->
   result m w = Ok false /\ store (exec m w) = store w /\ fs (exec m w) = fs w /\
   new_calls m w = []) /\
  (Py.contains "/" (name ce) = false ->
   is_Some (store w !! k) -> first_call_succeeds w ->
   result m w = Ok true /\
   store (exec m w) !! k = None /\
   (exists d l n, new_calls m w = CDelete k :: d /\ loop_shape log_entry 5 1 d l n) /\
   (length (accepted_log_writes (new_calls m w)) <= 1)%nat /\
   (turns w = [] ->
    accepted_log_writes (new_calls m w)
    = [(content_of w LOG_KEY +:+ log_entry, precondition (generation_of w LOG_KEY))] /\
    content_of (exec m w) LOG_KEY = content_of w LOG_KEY +:+ log_entry)).
Proof.
  intros m k log_entry. split.
  - intros H. unfold m, result, exec, new_calls, exec, handle_new_file_or_change.
    rewrite H. simpl. repeat apply conj; auto.
    apply drop_all.
  - intros H Hin Hf.
    set (msg := "Deleted disallowed file " +:+ name ce +:+ " (no files allowed at bucket root)").
    set (w0 := emit INFO ("❌ File " +:+ name ce +:+ " uploaded at bucket root — not allowed.") w).
    pose proof (root_object_is_not_the_log (bucket ce) (name ce) H) as Hk.
    destruct (blob_delete_ok k w0 Hf Hin Hk) as (w1 & D & C1 & L1 & N1 & S1 & Q1).
    destruct (gcs_log_journals msg "INFO" 5 w1) as (R & n & X & Lp).
    assert (Hrun : m w = (Ok true, exec (gcs_log msg "INFO" 5) w1)).
    { unfold m, handle_new_file_or_change. rewrite H. simpl.
      unfold bind at 1. unfold logger_info, modify. fold w0.
      unfold bind at 1. fold k. rewrite D.
      unfold bind, ret. fold msg. unfold result, exec in *.
      destruct (gcs_log msg "INFO" 5 w1) as [r w2]. simpl in *. now subst r. }
    assert (Hcalls : new_calls m w = CDelete k :: new_calls (gcs_log msg "INFO" 5) w1).
    { unfold new_calls at 1. unfold exec at 1. rewrite Hrun. simpl.
      destruct X as (C & _). rewrite C, C1. simpl.
      rewrite <- app_assoc. apply drop_app_length. }
    rewrite N1 in Lp. simpl in Lp. fold msg in log_entry. fold log_entry in Lp.
    assert (Hres : result m w = Ok true) by (unfold result; now rewrite Hrun).
    assert (Hexec : exec m w = exec (gcs_log msg "INFO" 5) w1)
      by (unfold exec at 1; now rewrite Hrun).
    rewrite Hres, Hexec, Hcalls.
    change (accepted_log_writes (CDelete k :: new_calls (gcs_log msg "INFO" 5) w1))
      with (accepted_log_writes (new_calls (gcs_log msg "INFO" 5) w1)).
    split; [reflexivity|]. split.
    { destruct X as (_ & _ & _ & _ & Fr). now rewrite (Fr k Hk). }
    split; [eauto|]. split.
    { now apply loop_shape_facts in Lp as (_ & A & _). }
    intros Hq. destruct (Q1 Hq) as [Hq1 Hs1].
    destruct (gcs_log_quiet msg "INFO" 5 w1 Hq1 ltac:(lia)) as (_ & _ & Hc & _ & Ha).
    assert (Hlog : store w1 !! LOG_KEY = store w !! LOG_KEY).
    { rewrite Hs1. apply lookup_delete_ne. exact Hk. }
    assert (Hco : content_of w1 LOG_KEY = content_of w LOG_KEY)
      by (unfold content_of; now rewrite Hlog).
    assert (Hge : generation_of w1 LOG_KEY = generation_of w LOG_KEY)
      by (unfold generation_of; now rewrite Hlog).
    rewrite Hco, Hge, N1 in *. split; [exact Ha | exact Hc].
Qed.

(** A run of the first half and of the second half of [folder_policy_enforced]. *)
Lemma folder_policy_enforced_witness :
  (let ce := Event FINALIZED "intake" "caseA/report.pdf" in
   let m := handle_new_file_or_change ce in
   Py.contains "/" (name ce) = true /\
   result m fresh = Ok false /\ new_calls m fresh = []) /\
  (let ce := Event FINALIZED "intake" "report.pdf" in
   let w := holding ("intake", "report.pdf") "%PDF" fresh in
   let m := handle_new_file_or_change ce in
   Py.contains "/" (name ce) = false /\
   result m w = Ok true /\
   store (exec m w) !! ("intake", "report.pdf") = None /\
   content_of (exec m w) LOG_KEY
   = "[2025-01-01 00:00:00 UTC] [INFO]: Deleted disallowed file report.pdf (no files allowed at bucket root)"
     +:+ Py.nl).
Proof.
  split.
  - pose proof (folder_policy_enforced (Event FINALIZED "intake" "caseA/report.pdf") fresh)
      as [H _].
    specialize (H eq_refl). cbv zeta. split; [reflexivity|]. tauto.
  - pose proof (folder_policy_enforced (Event FINALIZED "intake" "report.pdf")
                  (holding ("intake", "report.pdf") "%PDF" fresh)) as [_ H].
    assert (H1 : is_Some (store (holding ("intake", "report.pdf") "%PDF" fresh)
                          !! ("intake", "report.pdf")))
      by (vm_compute; eauto).
    specialize (H eq_refl H1 I).
    destruct H as (R & S & _ & _ & Q). destruct (Q eq_refl) as [_ C].
    cbv zeta. split; [reflexivity|]. split; [exact R|]. split; [exact S|]. exact C.
Defined.

(** C6 as stated fails: the object at the root is in the bucket and its
    delete goes through, then the storage layer fails the logger's first
    call.  The enforcer returns [true] with the object deleted and no audit
    entry appended. *)
Lemma root_object_deleted_without_audit_entry :
  let ce := Event FINALIZED "intake" "report.pdf" in
  let m := handle_new_file_or_change ce in
  Py.contains "/" (name ce) = false /\
  result m log_unreachable = Ok true /\
  store (exec m log_unreachable) !! ("intake", "report.pdf") = None /\
  new_calls m log_unreachable = [CDelete ("intake", "report.pdf")] /\
  store (exec m log_unreachable) !! LOG_KEY = None /\
  ~ folder_policy_as_stated.
Proof.
  do 5 (split; [vm_compute; reflexivity|]).
  intros H.
  specialize (H (Event FINALIZED "intake" "report.pdf") log_unreachable).
  assert (H1 : is_Some (store log_unreachable !! ("intake", "report.pdf")))
    by (vm_compute; eauto).
  assert (H2 : first_call_succeeds log_unreachable) by (vm_compute; reflexivity).
  specialize (H H1 H2).
  vm_compute in H. destruct H as (_ & _ & H). discriminate H.
Qed.

(** ** The validator *)




(** C4 at the failing input: the probe of a media file times out, or cannot
    be started.  [subprocess.run] raises [TimeoutExpired], resp. an
    [OSError]; the [except] clause names [CalledProcessError] only, so the
    exception leaves [validate_file_helper], and [validate_file] with it,
    before any verdict: the object is neither certified nor deleted. *)
Theorem probe_timeout_escapes_validator :
  let w := set_fs (insert "/tmp/clip.mp4" "....") fresh in
  let ce := Event FINALIZED "intake" "caseA/clip.mp4" in
  let stored := holding ("intake", "caseA/clip.mp4") "...." fresh in
  result (validate_file_helper "/tmp/clip.mp4" "caseA/clip.mp4") (with_services probe_times_out w)
  = Raise (Exn TimeoutExpired "Command 'ffprobe' timed out after 30 seconds") /\
  result (validate_file_helper "/tmp/clip.mp4" "caseA/clip.mp4") (with_services probe_missing w)
  = Raise (Exn OSError "[Errno 2] No such file or directory: 'ffprobe'") /\
  result (validate_file ce) (with_services probe_times_out stored)
  = Raise (Exn TimeoutExpired "Command 'ffprobe' timed out after 30 seconds") /\
  landmarks (new_calls (validate_file ce) (with_services probe_times_out stored)) = [] /\
  is_Some (store (exec (validate_file ce) (with_services probe_times_out stored))
           !! ("intake", "caseA/clip.mp4")).
Proof.
  do 4 (split; [vm_compute; reflexivity|]). vm_compute. eauto.
Qed.

(** ** The router *)

(** C2 at the failing input: a finalized event for an object at the bucket
    root that is no longer in the bucket (the event was delivered twice, or
    the object was removed meanwhile).  [blob.delete()] raises [NotFound]
    inside [handle_new_file_or_change], which the router calls outside any
    [try]: the exception leaves the handler. *)
Theorem finalized_event_can_raise :
  let ce := Event FINALIZED "intake" "report.pdf" in
  Py.contains "/" (name ce) = false /\
  result (analyze_discovery_material_ce ce) fresh
  = Raise (Exn NotFound "404 object not found") /\
  new_calls (analyze_discovery_material_ce ce) fresh = [].
Proof. do 2 (split; [vm_compute; reflexivity|]). vm_compute. reflexivity. Qed.

(** C3 at the failing input: a corrupt [.wav] inside a folder.  The
    validator's verdict is invalid and [validate_file] deletes the object;
    the router then runs [speech_to_text] all the same, which calls the
    transcription service on the deleted object and logs its failure. *)
Theorem invalid_object_is_still_transcribed :
  let ce := Event FINALIZED "intake" "caseA/bad.wav" in
  let w := with_services corrupt_media (holding ("intake", "caseA/bad.wav") "garbage" fresh) in
  let m := analyze_discovery_material_ce ce in
  result (validate_file_helper "/tmp/bad.wav" "caseA/bad.wav")
         (set_fs (insert "/tmp/bad.wav" "garbage") w)
  = Ok (false, "Invalid or corrupted media: caseA/bad.wav, moov atom not found") /\
  result m w = Ok tt /\
  store (exec m w) !! ("intake", "caseA/bad.wav") = None /\
  landmarks (new_calls m w)
  = [CDelete ("intake", "caseA/bad.wav"); CRecognize "gs://intake/caseA/bad.wav"] /\
  length (accepted_log_writes (new_calls m w)) = 2%nat.
Proof. do 4 (split; [vm_compute; reflexivity|]). vm_compute. reflexivity. Qed.

(** ** The transcription stage *)


(** C9: on an object whose extension is not an audio one the transcription
    stage returns at once.  It makes no external call (no transcription, no
    upload, no audit append), leaves buckets and local files as they were,
    and only tells the process logger that it skipped the file. *)
Theorem speech_to_text_skips_other_types (ce : CloudEvent) (w : world) :
  Py.str_in (get_file_extension (name ce)) AUDIO_EXTS = false ->
  let m := speech_to_text ce in
  result m w = Ok tt /\
  new_calls m w = [] /\
  store (exec m w) = store w /\
  fs (exec m w) = fs w /\
  new_records m w
  = [(INFO, "Skipping speech-to-text: unsupported file type '"
            +:+ get_file_extension (name ce) +:+ "'")].
Proof.
  intros H. unfold result, exec, new_calls, new_records, exec, speech_to_text.
  rewrite H. simpl. repeat apply conj; auto.
  - apply drop_all.
  - apply drop_app_length.
Qed.

Lemma speech_to_text_skips_other_types_witness :
  let ce := Event FINALIZED "intake" "caseA/photo.png" in
  Py.str_in (get_file_extension (name ce)) AUDIO_EXTS = false /\
  result (speech_to_text ce) fresh = Ok tt /\
  new_calls (speech_to_text ce) fresh = [].
Proof.
  cbv zeta. split; [reflexivity|].
  destruct (speech_to_text_skips_other_types (Event FINALIZED "intake" "caseA/photo.png")
              fresh eq_refl) as (R & C & _).
  split; [exact R | exact C].
Defined.

(** * Further properties of the code *)

(** ** Journals of the storage calls on any object *)

(** Closes a goal [journal w w' d l] from the facts of the steps in
    between. *)
Ltac chronicle :=
  repeat match goal with
         | H : extends _ _ _ _ |- _ => destruct H as (? & ? & ? & ? & _)
         | H : journal _ _ _ _ |- _ => destruct H as (? & ? & ? & ?)
         end;
  unfold journal;
  repeat (simpl;
          match goal with
          | H : calls _ = _ |- _ => rewrite H; clear H
          | H : logger _ = _ |- _ => rewrite H; clear H
          | H : now _ = _ |- _ => rewrite H; clear H
          | H : svc _ = _ |- _ => rewrite H; clear H
          end);
  simpl; repeat apply conj;
  rewrite <- ?app_assoc; simpl;
  first [ reflexivity | rewrite ?app_nil_r; simpl; reflexivity ].

Section StorageCalls.

Lemma journal_new_calls {A} (m : M A) (w : world) d l :
  journal w (exec m w) d l -> new_calls m w = d /\ new_records m w = l.
Proof.
  intros (C & L & _). unfold new_calls, new_records. rewrite C, L.
  split; apply drop_app_length.
Qed.

Lemma blob_delete_spec (k : string * string) (w w' : world) (r : res unit) :
  blob_delete k w = (r, w') ->
  fs w' = fs w /\
  match r with
  | Ok _ => journal w w' [CDelete k] [] /\ store w' !! k = None
  | Raise _ => journal w w' [] []
  end.
Proof.
  unfold blob_delete, bind, gets, modify, ret, raise.
  destruct (env_turn w) as [[[]|e] w1] eqn:E; apply env_turn_spec in E as [E F].
  - destruct (store w1 !! k) as [b|]; intros [= <- <-]; simpl; (split; [exact F|]).
    + split; [chronicle | apply lookup_delete_eq].
    + chronicle.
  - intros [= <- <-]. split; [exact F | chronicle].
Qed.

Lemma blob_upload_any (k : string * string) (path : string) (pre : option Z)
    (w w' : world) (r : res unit) :
  blob_upload_from_filename k path pre w = (r, w') ->
  fs w' = fs w /\
  match r with
  | Ok _ => exists c, fs w !! path = Some c /\ journal w w' [CUpload k c pre] [] /\
                      store w' !! k = Some (Blob (next_generation w' - 1) c)
  | Raise e =>
      journal w w' [] [] \/
      exists c g, pre = Some g /\ journal w w' [CRejected k c pre] []
  end.
Proof.
  unfold blob_upload_from_filename, bind, gets, modify, ret, raise.
  destruct (env_turn w) as [[[]|e] w1] eqn:E; apply env_turn_spec in E as [E F].
  - rewrite <- F. destruct (fs w1 !! path) as [c|] eqn:Hc.
    + assert (Hg : forall x : Z, x + 1 - 1 = x) by (intros; lia).
      destruct pre as [g|].
      * destruct (generation_of w1 k =? g); intros [= <- <-]; simpl;
          (split; [reflexivity|]).
        -- exists c. split; [reflexivity|]. split; [chronicle|].
           now rewrite lookup_insert_eq, Hg.
        -- right. exists c, g. split; [reflexivity|]. chronicle.
      * intros [= <- <-]; simpl. split; [reflexivity|].
        exists c. split; [reflexivity|]. split; [chronicle|].
        now rewrite lookup_insert_eq, Hg.
    + intros [= <- <-]. split; [reflexivity|]. left. chronicle.
  - intros [= <- <-]. split; [exact F|]. left. chronicle.
Qed.

Lemma blob_upload_from_string_spec (k : string * string) (data : string)
    (w w' : world) (r : res unit) :
  blob_upload_from_string k data w = (r, w') ->
  match r with
  | Ok _ => journal w w' [CUpload k data None] [] /\
            store w' !! k = Some (Blob (next_generation w' - 1) data)
  | Raise _ => journal w w' [] []
  end.
Proof.
  unfold blob_upload_from_string, bind, gets, modify, ret, raise.
  destruct (env_turn w) as [[[]|e] w1] eqn:E; apply env_turn_spec in E as [E F];
    intros [= <- <-]; simpl.
  - split; [chronicle|]. rewrite lookup_insert_eq. do 2 f_equal. lia.
  - chronicle.
Qed.

Lemma landmarks_app (d1 d2 : list call) :
  landmarks (d1 ++ d2) = landmarks d1 ++ landmarks d2.
Proof. apply flat_map_app. Qed.

(** The audit logger deletes nothing and transcribes nothing. *)
Lemma loop_shape_landmarks log_entry remaining attempt d l n :
  loop_shape log_entry remaining attempt d l n -> landmarks d = [].
Proof.
  assert (R : forall d o, read_phase log_entry d o -> landmarks d = [])
    by (destruct 1; reflexivity).
  assert (A : forall a d l c, attempt_shape log_entry a d l c -> landmarks d = []).
  { destruct 1 as [r ? ? H|r ? ? H|r ? H|r ? ? H];
      rewrite ?landmarks_app, (R _ _ H); reflexivity. }
  induction 1 as [a|r a d l H|r a d l ds ls n H L IH].
  - reflexivity.
  - exact (A _ _ _ _ H).
  - rewrite landmarks_app, (A _ _ _ _ H), IH. reflexivity.
Qed.

(** One call of [gcs_log] with the default five attempts. *)
Lemma gcs_log_audit (message severity : string) (w : world) :
  exists w' d l,
    gcs_log message severity 5 w = (Ok tt, w') /\
    extends w w' d l /\ audit_calls (now w) severity message d.
Proof.
  destruct (gcs_log_spec message severity 5 w) as (w' & d & l & n & E & X & L).
  exists w', d, l. split; [exact E|]. split; [exact X|]. exists l, n. exact L.
Qed.

End StorageCalls.

(** ** The validator, branch by branch *)

Section Validator.

Lemma validate_media_spec (local_path file_name : string) (w w' : world)
    (r : res (bool * string)) :
  validate_media local_path file_name w = (r, w') ->
  (w' = w /\ fs w !! local_path = None) \/
  (w' = record (CProbe local_path) w /\ is_Some (fs w !! local_path)).
Proof.
  unfold validate_media, try_except_only, try_except, bind, os_path_exists, gets,
    subprocess_run_ffprobe, modify, lift, ret, raise.
  simpl. destruct (fs w !! local_path) as [c|] eqn:Hc; simpl.
  - rewrite Hc. simpl. destruct (ffprobe (svc w) c) as [[rc err]|e]; simpl.
    + destruct (negb (rc =? 0) || negb (String.eqb (Py.strip err) EmptyString));
        intros [= <- <-]; right; eauto.
    + destruct (kind e); intros [= <- <-]; right; eauto.
  - intros [= <- <-]. now left.
Qed.

Lemma validate_opener_spec (local_path : string) (w w' : world) (r : res (bool * string)) :
  validate_image local_path w = (r, w') \/ validate_docx local_path w = (r, w') \/
  validate_pdf local_path w = (r, w') ->
  w' = w /\ exists v, r = Ok v.
Proof.
  unfold validate_image, validate_docx, validate_pdf, try_except, bind, lift, ret.
  intros [H|[H|H]]; revert H;
    [destruct (image_verify _ _) as [[]|e]
    |destruct (docx_open _ _) as [[]|e]
    |destruct (pdf_pages _ _) as [[]|e]];
    intros [= <- <-]; eauto.
Qed.

Lemma validate_file_helper_spec (local_path file_name : string) (w w' : world)
    (r : res (bool * string)) :
  validate_file_helper local_path file_name w = (r, w') ->
  (w' = w \/ w' = record (CProbe local_path) w) /\
  (Py.str_in (get_file_extension file_name) MEDIA_EXTS = false ->
   w' = w /\ exists v, r = Ok v).
Proof.
  unfold validate_file_helper.
  destruct (Py.str_in (get_file_extension file_name) MEDIA_EXTS).
  { intros H. apply validate_media_spec in H as [[-> _]|[-> _]]; split; auto; discriminate. }
  destruct (Py.str_in (get_file_extension file_name) IMAGE_EXTS).
  { intros H. destruct (validate_opener_spec local_path w w' r) as [-> V]; auto. }
  destruct (String.eqb (get_file_extension file_name) ".docx").
  { intros H. destruct (validate_opener_spec local_path w w' r) as [-> V]; auto. }
  destruct (String.eqb (get_file_extension file_name) ".pdf").
  { intros H. destruct (validate_opener_spec local_path w w' r) as [-> V]; auto. }
  unfold validate_unsupported, ret. intros [= <- <-]. eauto.
Qed.



(** X19: A media file that is not on the local disk is invalid, and the probe is
    not started. *)
Theorem media_missing_file_is_invalid (local_path file_name : string) (w : world) :
  fs w !! local_path = None ->
  Py.str_in (get_file_extension file_name) MEDIA_EXTS = true ->
  validate_file_helper local_path file_name w
  = (Ok (false, "File download failed: " +:+ local_path +:+ " does not exist."), w).
Proof.
  intros Hc Hm. unfold validate_file_helper. rewrite Hm.
  unfold validate_media, bind, os_path_exists, gets, ret. rewrite Hc. reflexivity.
Qed.

Lemma media_missing_file_is_invalid_witness :
  validate_file_helper "/tmp/clip.mp4" "caseA/clip.MP4" fresh
  = (Ok (false, "File download failed: /tmp/clip.mp4 does not exist."), fresh).
Proof.
  apply media_missing_file_is_invalid; vm_compute; reflexivity.
Defined.

(** X20: What the probe raises: a [CalledProcessError] becomes an invalid
    verdict that carries its stripped [stderr]; an exception of any other
    class leaves the validator as it is. *)
Theorem media_probe_exceptions (local_path file_name bytes : string) (e : exn)
    (w : world) :
  fs w !! local_path = Some bytes ->
  ffprobe (svc w) bytes = Raise e ->
  result (validate_media local_path file_name) w
  = if is_kind CalledProcessError e
    then Ok (false, "Invalid or corrupted media: " +:+ Py.strip (text e))
    else Raise e.
Proof.
  intros Hc Hp.
  unfold result, validate_media, try_except_only, try_except, bind, os_path_exists, gets,
    subprocess_run_ffprobe, modify, lift, ret, raise.
  rewrite Hc. simpl. rewrite Hc. simpl. rewrite Hp. simpl.
  unfold is_kind. destruct (kind e); reflexivity.
Qed.

Lemma media_probe_exceptions_witness :
  result (validate_media "/tmp/clip.mp4" "caseA/clip.mp4")
         (with_services probe_missing clip_on_disk)
  = Raise (Exn OSError "[Errno 2] No such file or directory: 'ffprobe'").
Proof.
  apply (media_probe_exceptions "/tmp/clip.mp4" "caseA/clip.mp4" "...."
           (Exn OSError "[Errno 2] No such file or directory: 'ffprobe'")
           (with_services probe_missing clip_on_disk));
    vm_compute; reflexivity.
Defined.


End Validator.

(** ** The transcription stage, in every world *)

Section Transcription.

Lemma transcribe_gcs_spec (gcs_uri : string) (w w' : world) (r : res string) :
  transcribe_gcs gcs_uri w = (r, w') ->
  w' = record (CRecognize gcs_uri) w /\
  match r with
  | Ok t => exists results transcripts,
      recognize (svc w) gcs_uri = Ok results /\
      first_alternatives results = Ok transcripts /\
      t = Py.strip (Py.join Py.nl transcripts)
  | Raise e =>
      recognize (svc w) gcs_uri = Raise e \/
      exists results, recognize (svc w) gcs_uri = Ok results /\
                      first_alternatives results = Raise e
  end.
Proof.
  unfold transcribe_gcs, bind, modify, lift, ret. simpl.
  destruct (recognize (svc w) gcs_uri) as [results|e]; simpl.
  - destruct (first_alternatives results) as [ts|e] eqn:F; intros [= <- <-];
      (split; [reflexivity|]); eauto.
  - intros [= <- <-]. auto.
Qed.

Lemma transcript_body_not_empty (transcripts : list string) :
  transcript_body transcripts <> EmptyString.
Proof.
  unfold transcript_body.
  destruct (String.eqb_spec (Py.strip (Py.join Py.nl transcripts)) EmptyString);
    [discriminate | assumption].
Qed.

Lemma speech_to_text_spec (ce : CloudEvent) (w : world) :
  exists w' d l,
    speech_to_text ce w = (Ok tt, w') /\ journal w w' d l /\
    if Py.str_in (get_file_extension (name ce)) AUDIO_EXTS
    then transcription_calls (now w) ce d
    else d = [].
Proof.
  unfold speech_to_text.
  destruct (Py.str_in (get_file_extension (name ce)) AUDIO_EXTS); simpl.
  2:{ unfold logger_info, modify. eexists _, [], [_]. split; [reflexivity|].
      split; [|reflexivity]. chronicle. }
  fold (gcs_uri_of ce). set (uri := gcs_uri_of ce).
  unfold bind at 1. unfold logger_info at 1, modify at 1.
  set (w0 := emit INFO _ w).
  unfold try_except. unfold bind at 1.
  destruct (transcribe_gcs uri w0) as [[t|e] w1] eqn:T;
    apply transcribe_gcs_spec in T as [-> T].
  - destruct T as (results & ts & _ & _ & ->). fold (transcript_body ts).
    unfold bind at 1. unfold file_write at 1, modify at 1.
    set (tmp := "/tmp/" +:+ Py.basename (processed_blob_name (name ce))).
    set (w2 := set_fs _ _).
    unfold bind at 1.
    destruct (blob_upload_from_filename (OUTPUT_BUCKET, processed_blob_name (name ce)) tmp None w2)
      as [[[]|e] w3] eqn:U; apply blob_upload_any in U as [F U].
    + destruct U as (c & Hc & U & _).
      assert (c = transcript_body ts) as ->.
      { unfold w2 in Hc. simpl in Hc. rewrite lookup_insert_eq in Hc. congruence. }
      unfold bind at 1. unfold logger_info at 1, modify at 1.
      set (w4 := emit INFO _ w3).
      destruct (gcs_log_audit ("Transcribed " +:+ uri +:+ " → gs://" +:+ OUTPUT_BUCKET +:+ "/"
                               +:+ processed_blob_name (name ce)) "INFO" w4)
        as (w5 & d & l & E & X & A).
      rewrite E. eexists w5, _, _. split; [reflexivity|]. split.
      2:{ apply transcribed with (body := transcript_body ts) (d := d).
          - apply transcript_body_not_empty.
          - destruct U as (_ & _ & N & _). unfold w4 in A. simpl in A.
            rewrite N in A. exact A. }
      subst w0 w2 w4. chronicle.
    + unfold bind at 1. unfold logger_exception at 1, modify at 1.
      set (w4 := emit ERROR _ w3).
      destruct (gcs_log_audit ("Speech-to-text failed for " +:+ uri +:+ ": " +:+ text e)
                              "ERROR" w4) as (w5 & d & l & E & X & A).
      rewrite E. eexists w5, _, _. split; [reflexivity|].
      destruct U as [U|(c & g & Hg & _)]; [|discriminate].
      split.
      2:{ apply transcription_failed with (e := e) (d := d).
          destruct U as (_ & _ & N & _). unfold w4 in A. simpl in A.
          rewrite N in A. exact A. }
      subst w0 w2 w4. chronicle.
  - unfold bind at 1. unfold logger_exception at 1, modify at 1.
    set (w4 := emit ERROR _ _).
    destruct (gcs_log_audit ("Speech-to-text failed for " +:+ uri +:+ ": " +:+ text e)
                            "ERROR" w4) as (w5 & d & l & E & X & A).
    rewrite E. eexists w5, _, _. split; [reflexivity|]. split.
    2:{ apply transcription_failed with (e := e) (d := d). exact A. }
    subst w0 w4. chronicle.
Qed.

End Transcription.

Section TranscriptionProperties.

(** Every write of the audit logger goes to the audit log. *)
Lemma loop_shape_uploads log_entry remaining attempt d l n k c p :
  loop_shape log_entry remaining attempt d l n ->
  CUpload k c p ∈ d -> k = LOG_KEY.
Proof.
  assert (R : forall d o, read_phase log_entry d o -> CUpload k c p ∈ d -> False).
  { destruct 1; intros H;
      repeat (apply elem_of_cons in H as [H|H]; [discriminate H|]);
      now apply elem_of_nil in H. }
  assert (A : forall a d l r, attempt_shape log_entry a d l r ->
                              CUpload k c p ∈ d -> k = LOG_KEY).
  { destruct 1 as [r ? ? H|r ? ? H|r ? H|r ? ? H]; intros Hin;
      try (apply elem_of_app in Hin as [Hin|Hin]);
      try (now destruct (R _ _ H Hin));
      repeat (apply elem_of_cons in Hin as [Hin|Hin]; [congruence|]);
      now apply elem_of_nil in Hin. }
  induction 1 as [a|r a d l H|r a d l ds ls n H L IH]; intros Hin.
  - now apply elem_of_nil in Hin.
  - exact (A _ _ _ _ H Hin).
  - apply elem_of_app in Hin as [Hin|Hin]; [exact (A _ _ _ _ H Hin) | exact (IH Hin)].
Qed.

(** X7: The transcription stage never raises, whatever the recogniser and the
    store do. *)
Theorem speech_to_text_never_raises (ce : CloudEvent) (w : world) :
  result (speech_to_text ce) w = Ok tt.
Proof.
  destruct (speech_to_text_spec ce w) as (w' & d & l & E & _).
  unfold result. now rewrite E.
Qed.

(** X8: On an audio object the stage calls the recogniser exactly once, on
    [gs://bucket/name]; on any object it deletes nothing. *)
Theorem speech_to_text_recognizes_once (ce : CloudEvent) (w : world) :
  landmarks (new_calls (speech_to_text ce) w)
  = if Py.str_in (get_file_extension (name ce)) AUDIO_EXTS
    then [CRecognize ("gs://" +:+ bucket ce +:+ "/" +:+ name ce)]
    else [].
Proof.
  destruct (speech_to_text_spec ce w) as (w' & d & l & E & J & S).
  assert (Hd : new_calls (speech_to_text ce) w = d).
  { apply (journal_new_calls (speech_to_text ce) w d l). unfold exec. now rewrite E. }
  rewrite Hd. destruct (Py.str_in (get_file_extension (name ce)) AUDIO_EXTS).
  - destruct S as [body ds _ (ls & n & L)|e ds (ls & n & L)]; simpl;
      fold (landmarks ds); rewrite (loop_shape_landmarks _ _ _ _ _ _ L); reflexivity.
  - now subst d.
Qed.

(** X9: Whatever the stage writes to a bucket goes to the audit log or, with no
    precondition and a body that is not empty, to the derived path in the
    output bucket. *)
Theorem speech_to_text_writes (ce : CloudEvent) (w : world) k body pre :
  CUpload k body pre ∈ new_calls (speech_to_text ce) w ->
  k = LOG_KEY \/
  (k = (OUTPUT_BUCKET, fst (Py.splitext (name ce)) +:+ ".txt") /\
   body <> EmptyString /\ pre = None).
Proof.
  destruct (speech_to_text_spec ce w) as (w' & d & l & E & J & S).
  assert (Hd : new_calls (speech_to_text ce) w = d).
  { apply (journal_new_calls (speech_to_text ce) w d l). unfold exec. now rewrite E. }
  rewrite Hd. destruct (Py.str_in (get_file_extension (name ce)) AUDIO_EXTS).
  - destruct S as [b ds Hb (ls & n & L)|e ds (ls & n & L)]; intros Hin.
    + apply elem_of_cons in Hin as [Hin|Hin]; [discriminate|].
      apply elem_of_cons in Hin as [Hin|Hin].
      * injection Hin as -> -> ->. right. auto.
      * left. exact (loop_shape_uploads _ _ _ _ _ _ _ _ _ L Hin).
    + apply elem_of_cons in Hin as [Hin|Hin]; [discriminate|].
      left. exact (loop_shape_uploads _ _ _ _ _ _ _ _ _ L Hin).
  - subst d. intros Hin. now apply elem_of_nil in Hin.
Qed.

Lemma speech_to_text_writes_witness :
  let ce := Event FINALIZED "intake" "caseA/interview.wav" in
  CUpload (OUTPUT_BUCKET, "caseA/interview.txt") ("hello" +:+ Py.nl +:+ "world") None
  ∈ new_calls (speech_to_text ce) fresh /\
  (OUTPUT_BUCKET, "caseA/interview.txt") = (OUTPUT_BUCKET, fst (Py.splitext (name ce)) +:+ ".txt").
Proof.
  cbv zeta.
  assert (H : CUpload (OUTPUT_BUCKET, "caseA/interview.txt") ("hello" +:+ Py.nl +:+ "world") None
              ∈ new_calls (speech_to_text (Event FINALIZED "intake" "caseA/interview.wav")) fresh).
  { vm_compute. apply list_elem_of_In. simpl. auto. }
  split; [exact H|].
  destruct (speech_to_text_writes _ _ _ _ _ H) as [K|(K & _)]; [discriminate K | exact K].
Defined.

End TranscriptionProperties.

Section TranscriptionOutcomes.

Variable ce : CloudEvent.
Variable w : world.
Hypothesis audio : Py.str_in (get_file_extension (name ce)) AUDIO_EXTS = true.


(** X10: The recogniser fails: the stage stores no transcript and touches no
    object but the audit log, to which it appends (when undisturbed) the
    entry of the failure at severity ERROR. *)
Theorem speech_to_text_failure_is_logged (e : exn) :
  recognize (svc w) (gcs_uri_of ce) = Raise e ->
  let m := speech_to_text ce in
  let log_entry :=
    format_entry (now w) "ERROR"
      ("Speech-to-text failed for " +:+ gcs_uri_of ce +:+ ": " +:+ text e) in
  result m w = Ok tt /\
  (forall k, k <> LOG_KEY -> store (exec m w) !! k = store w !! k) /\
  (turns w = [] ->
   content_of (exec m w) LOG_KEY = content_of w LOG_KEY +:+ log_entry).
Proof.
  intros Hr m log_entry.
  set (msg := "Speech-to-text failed for " +:+ gcs_uri_of ce +:+ ": " +:+ text e).
  set (w4 := emit ERROR ("❌ Speech-to-text v2 failed for " +:+ gcs_uri_of ce +:+ ": " +:+ text e)
               (record (CRecognize (gcs_uri_of ce))
                  (emit INFO ("🎧 Transcribing " +:+ gcs_uri_of ce
                              +:+ " via Speech-to-Text v2...") w))).
  assert (Hrun : m w = gcs_log msg "ERROR" 5 w4).
  { unfold m, speech_to_text. rewrite audio. simpl. fold (gcs_uri_of ce).
    unfold bind at 1. unfold logger_info at 1, modify at 1.
    unfold try_except, bind at 1.
    unfold transcribe_gcs, bind, modify, lift, ret. simpl. rewrite Hr. reflexivity. }
  destruct (gcs_log_journals msg "ERROR" 5 w4) as (R & n & X & L).
  assert (Hres : result m w = Ok tt) by (unfold result in *; now rewrite Hrun).
  assert (Hexec : exec m w = exec (gcs_log msg "ERROR" 5) w4)
    by (unfold exec; now rewrite Hrun).
  split; [exact Hres|]. split.
  { intros k Hk. rewrite Hexec. destruct X as (_ & _ & _ & _ & Fr). now rewrite (Fr k Hk). }
  intros Hq. rewrite Hexec.
  destruct (gcs_log_quiet msg "ERROR" 5 w4 Hq ltac:(lia)) as (_ & _ & Hc & _).
  exact Hc.
Qed.


End TranscriptionOutcomes.

Lemma speech_to_text_failure_is_logged_witness :
  let ce := Event FINALIZED "intake" "caseA/bad.wav" in
  let w := with_services corrupt_media fresh in
  result (speech_to_text ce) w = Ok tt /\
  content_of (exec (speech_to_text ce) w) LOG_KEY
  = "[2025-01-01 00:00:00 UTC] [ERROR]: Speech-to-text failed for gs://intake/caseA/bad.wav: 404 audio object not found"
    +:+ Py.nl.
Proof.
  cbv zeta.
  destruct (speech_to_text_failure_is_logged (Event FINALIZED "intake" "caseA/bad.wav")
              (with_services corrupt_media fresh) eq_refl
              (Exn NotFound "404 audio object not found") eq_refl) as (R & _ & C).
  split; [exact R | exact (C eq_refl)].
Defined.


(** ** [validate_file] in every world *)

Section Validation.

Lemma validate_file_helper_reads_file_only (local_path file_name : string)
    (w1 w2 : world) :
  svc w1 = svc w2 -> fs w1 !! local_path = fs w2 !! local_path ->
  result (validate_file_helper local_path file_name) w1
  = result (validate_file_helper local_path file_name) w2.
Proof.
  intros Hs Hf. unfold result, validate_file_helper.
  destruct (Py.str_in (get_file_extension file_name) MEDIA_EXTS).
  { unfold validate_media, try_except_only, try_except, bind, os_path_exists, gets,
      subprocess_run_ffprobe, modify, lift, ret, raise. simpl. rewrite Hf.
    destruct (fs w2 !! local_path) as [c|] eqn:Hc; simpl; [|reflexivity].
    rewrite Hf, Hc, Hs. simpl.
    destruct (ffprobe (svc w2) c) as [[rc err]|e]; simpl.
    - destruct (negb (rc =? 0) || negb (String.eqb (Py.strip err) EmptyString)); reflexivity.
    - destruct (kind e); reflexivity. }
  destruct (Py.str_in (get_file_extension file_name) IMAGE_EXTS).
  { unfold validate_image, try_except, bind, lift, ret. rewrite Hs, Hf.
    destruct (image_verify _ _) as [[]|e]; reflexivity. }
  destruct (String.eqb (get_file_extension file_name) ".docx").
  { unfold validate_docx, try_except, bind, lift, ret. rewrite Hs, Hf.
    destruct (docx_open _ _) as [[]|e]; reflexivity. }
  destruct (String.eqb (get_file_extension file_name) ".pdf").
  { unfold validate_pdf, try_except, bind, lift, ret. rewrite Hs, Hf.
    destruct (pdf_pages _ _) as [[]|e]; reflexivity. }
  reflexivity.
Qed.

(** X22: The verdict depends on the collaborators and on the bytes of the local
    file, on nothing else in the world. *)
Theorem validator_verdict_is_a_function_of_the_file (local_path file_name : string)
    (w1 w2 : world) :
  svc w1 = svc w2 -> fs w1 !! local_path = fs w2 !! local_path ->
  result (validate_file_helper local_path file_name) w1
  = result (validate_file_helper local_path file_name) w2.
Proof. apply validate_file_helper_reads_file_only. Qed.

Lemma validator_verdict_is_a_function_of_the_file_witness :
  result (validate_file_helper "/tmp/clip.mp4" "caseA/clip.mp4") clip_on_disk
  = result (validate_file_helper "/tmp/clip.mp4" "caseA/clip.mp4")
           (emit INFO "noise" (holding ("intake", "x") "y" clip_on_disk)).
Proof.
  apply validator_verdict_is_a_function_of_the_file; vm_compute; reflexivity.
Defined.

Lemma validate_file_spec (ce : CloudEvent) (w : world) :
  exists r w' d l,
    validate_file ce w = (r, w') /\ journal w w' d l /\
    validation_calls (now w) ce d.
Proof.
  unfold validate_file.
  set (k := (bucket ce, name ce)). set (tmp := "/tmp/" +:+ Py.basename (name ce)).
  unfold bind at 1. unfold logger_info at 1, modify at 1.
  unfold bind at 1. unfold logger_info at 1, modify at 1.
  set (w0 := emit INFO "WE GET HERE:)" _).
  unfold bind at 1.
  destruct (blob_download_to_filename k tmp w0) as [[[]|e] w1] eqn:D;
    apply blob_download_spec in D.
  2:{ destruct D as [D _]. eexists _, _, [], _. split; [reflexivity|].
      split; [|constructor]. subst w0. chronicle. }
  destruct D as (c & D & _).
  unfold bind at 1. unfold logger_info at 1, modify at 1.
  set (w2 := emit INFO _ w1).
  unfold bind at 1.
  destruct (validate_file_helper tmp (name ce) w2) as [[[valid message]|e] w3] eqn:V;
    apply validate_file_helper_spec in V as [V _].
  2:{ destruct V as [-> | ->]; eexists _, _, _, _; (split; [reflexivity|]); split.
      - subst w0 w2; chronicle.
      - apply validation_kept with (probe := []). now left.
      - subst w0 w2; chronicle.
      - apply validation_kept with (probe := [CProbe tmp]). now right. }
  assert (P : exists probe, journal w2 w3 probe [] /\ (probe = [] \/ probe = [CProbe tmp])).
  { destruct V as [-> | ->]; [exists [] | exists [CProbe tmp]]; split; auto; chronicle. }
  clear V. destruct P as (probe & P & Hp). simpl.
  destruct valid.
  { unfold logger_info, modify. eexists _, _, _, _. split; [reflexivity|]. split.
    2:{ apply validation_kept with (probe := probe). exact Hp. }
    subst w0 w2. chronicle. }
  unfold bind at 1. unfold logger_warning at 1, modify at 1.
  set (w4 := emit WARNING message w3).
  unfold bind at 1.
  destruct (blob_delete k w4) as [[[]|e] w5] eqn:X; apply blob_delete_spec in X as [_ X].
  2:{ eexists _, _, _, _. split; [reflexivity|]. split.
      2:{ apply validation_kept with (probe := probe). exact Hp. }
      subst w0 w2 w4. chronicle. }
  destruct X as [X _].
  destruct (gcs_log_audit ("Deleted corrupted or invalid file " +:+ name ce +:+ ": "
                           +:+ message +:+ Py.nl) "ERROR" w5) as (w6 & d & l & E & G & A).
  rewrite E. eexists _, w6, _, _. split; [reflexivity|]. split.
  2:{ apply validation_deleted with (probe := probe) (message := message) (d := d);
        [exact Hp|].
      assert (N : now w5 = now w).
      { destruct X as (_ & _ & -> & _). subst w4. simpl.
        destruct P as (_ & _ & -> & _). subst w2. simpl.
        destruct D as (_ & _ & -> & _). reflexivity. }
      rewrite N in A. exact A. }
  subst w0 w2 w4. chronicle.
Qed.

(** X15: [validate_file] deletes nothing but the object of the event, at most
    once and only after having downloaded it, and never calls the
    recogniser. *)
Theorem validate_file_deletes_only_its_object (ce : CloudEvent) (w : world) :
  let d := new_calls (validate_file ce) w in
  (landmarks d = [] \/
   landmarks d = [CDelete (bucket ce, name ce)] /\
   exists c rest, d = CDownload (bucket ce, name ce) ("/tmp/" +:+ Py.basename (name ce)) c
                      :: rest).
Proof.
  destruct (validate_file_spec ce w) as (r & w' & d & l & E & J & S).
  assert (Hd : new_calls (validate_file ce) w = d).
  { apply (journal_new_calls (validate_file ce) w d l). unfold exec. now rewrite E. }
  simpl. rewrite Hd.
  destruct S as [|c probe Hp|c probe message ds Hp (ls & n & L)].
  - now left.
  - left. destruct Hp as [-> | ->]; reflexivity.
  - right. split; [|eauto].
    change (landmarks (CDownload (bucket ce, name ce) ("/tmp/" +:+ Py.basename (name ce)) c
                       :: probe ++ CDelete (bucket ce, name ce) :: ds))
      with (landmarks (probe ++ CDelete (bucket ce, name ce) :: ds)).
    rewrite landmarks_app.
    change (landmarks (CDelete (bucket ce, name ce) :: ds))
      with (CDelete (bucket ce, name ce) :: landmarks ds).
    rewrite (loop_shape_landmarks _ _ _ _ _ _ L).
    destruct Hp as [-> | ->]; reflexivity.
Qed.

End Validation.

Section ValidationOutcomes.

Variable ce : CloudEvent.
Variable w : world.
Variable b : blob.

Let k : string * string := (bucket ce, name ce).
Let tmp : string := "/tmp/" +:+ Py.basename (name ce).

Hypothesis quiet : turns w = [].
Hypothesis stored : store w !! k = Some b.


End ValidationOutcomes.


(** ** The router in every world *)

Section Router.

Variable ce : CloudEvent.
Variable w : world.

Let k : string * string := (bucket ce, name ce).

Lemma analyze_other_event :
  String.eqb (ce_type ce) FINALIZED = false ->
  analyze_discovery_material_ce ce w
  = (Ok tt, emit INFO ("Called " +:+ Py.dq +:+ "analyze_discovery_material_ce" +:+ Py.dq
                       +:+ " successfully") w).
Proof.
  intros H. unfold analyze_discovery_material_ce, bind, logger_info, modify, ret.
  unfold FINALIZED in H. now rewrite H.
Qed.

Lemma analyze_at_root_spec :
  String.eqb (ce_type ce) FINALIZED = true -> Py.contains "/" (name ce) = false ->
  exists r w' d l,
    analyze_discovery_material_ce ce w = (r, w') /\ journal w w' d l /\
    (d = [] \/
     exists d', d = CDelete k :: d' /\
                audit_calls (now w) "INFO"
                  ("Deleted disallowed file " +:+ name ce
                   +:+ " (no files allowed at bucket root)") d').
Proof.
  intros Ht Hs. unfold analyze_discovery_material_ce.
  unfold bind at 1. unfold logger_info at 1, modify at 1.
  unfold FINALIZED in Ht. rewrite Ht.
  unfold handle_new_file_or_change. rewrite Hs. simpl. fold k.
  unfold bind at 1. unfold bind at 1. unfold logger_info at 1, modify at 1.
  set (w0 := emit INFO _ (emit INFO _ w)).
  unfold bind at 1.
  destruct (blob_delete k w0) as [[[]|e] w1] eqn:D; apply blob_delete_spec in D as [_ D].
  2:{ eexists _, _, [], _. split; [reflexivity|]. split; [|now left].
      subst w0. chronicle. }
  destruct D as [D _].
  destruct (gcs_log_audit ("Deleted disallowed file " +:+ name ce
                           +:+ " (no files allowed at bucket root)") "INFO" w1)
    as (w2 & d & l & E & X & A).
  unfold bind at 1. rewrite E. unfold ret.
  eexists _, w2, _, _. split; [reflexivity|]. split.
  2:{ right. exists d. split; [reflexivity|].
      assert (N : now w1 = now w) by (destruct D as (_ & _ & -> & _); reflexivity).
      rewrite N in A. exact A. }
  subst w0. chronicle.
Qed.

Lemma analyze_in_folder_spec :
  String.eqb (ce_type ce) FINALIZED = true -> Py.contains "/" (name ce) = true ->
  exists w' dv ds l,
    analyze_discovery_material_ce ce w = (Ok tt, w') /\ journal w w' (dv ++ ds) l /\
    validation_calls (now w) ce dv /\
    if Py.str_in (get_file_extension (name ce)) AUDIO_EXTS
    then transcription_calls (now w) ce ds
    else ds = [].
Proof.
  intros Ht Hs. unfold analyze_discovery_material_ce.
  unfold bind at 1. unfold logger_info at 1, modify at 1.
  unfold FINALIZED in Ht. rewrite Ht.
  unfold handle_new_file_or_change. rewrite Hs. simpl.
  unfold bind at 1. unfold bind at 1. unfold logger_info at 1, modify at 1.
  unfold ret at 1.
  set (w0 := emit INFO _ (emit INFO _ w)).
  unfold bind at 1. unfold try_except.
  destruct (validate_file_spec ce w0) as (r & w1 & dv & lv & V & JV & SV).
  rewrite V.
  assert (W : exists w2 lx, (match r with
                             | Ok a => (Ok a, w1)
                             | Raise e => logger_exception ("Error validating file : " +:+ text e) w1
                             end) = (Ok tt, w2) /\ journal w1 w2 [] lx).
  { destruct r as [[]|e].
    - exists w1, []. split; [reflexivity | chronicle].
    - eexists _, [_]. unfold logger_exception, modify. split; [reflexivity | chronicle]. }
  destruct W as (w2 & lx & -> & JX).
  unfold bind at 1.
  destruct (speech_to_text_spec ce w2) as (w3 & ds & ls & S & JS & SS).
  rewrite S. unfold logger_info, modify.
  eexists _, dv, ds, _. split; [reflexivity|].
  assert (N2 : now w2 = now w).
  { destruct JX as (_ & _ & -> & _). destruct JV as (_ & _ & -> & _). reflexivity. }
  rewrite N2 in SS. split; [|split; [exact SV | exact SS]].
  subst w0. chronicle.
Qed.

End Router.

(** X3: For an object inside a folder, and for an event of another type, the
    handler returns normally, whatever validation, transcription and the
    store do. *)
Theorem router_isolates_later_stages (ce : CloudEvent) (w : world) :
  String.eqb (ce_type ce) FINALIZED = false \/ Py.contains "/" (name ce) = true ->
  result (analyze_discovery_material_ce ce) w = Ok tt.
Proof.
  intros [H|H].
  - unfold result. now rewrite analyze_other_event.
  - destruct (String.eqb (ce_type ce) FINALIZED) eqn:Ht.
    + destruct (analyze_in_folder_spec ce w Ht H) as (w' & dv & ds & l & E & _).
      unfold result. now rewrite E.
    + unfold result. now rewrite analyze_other_event.
Qed.

Lemma router_isolates_later_stages_witness :
  result (analyze_discovery_material_ce (Event FINALIZED "intake" "caseA/clip.mp4"))
         (with_services probe_times_out fresh) = Ok tt.
Proof.
  apply router_isolates_later_stages. right. reflexivity.
Defined.

(** X4: An event of another type causes no external call at all. *)
Theorem router_ignores_other_events (ce : CloudEvent) (w : world) :
  ce_type ce <> FINALIZED ->
  let m := analyze_discovery_material_ce ce in
  result m w = Ok tt /\ new_calls m w = [] /\
  store (exec m w) = store w /\ fs (exec m w) = fs w.
Proof.
  intros H. apply String.eqb_neq in H.
  unfold result, new_calls, exec. rewrite (analyze_other_event ce w H). simpl.
  repeat apply conj; auto. apply drop_all.
Qed.

Lemma router_ignores_other_events_witness :
  let ce := Event "google.cloud.storage.object.v1.deleted" "intake" "report.pdf" in
  result (analyze_discovery_material_ce ce) fresh = Ok tt /\
  new_calls (analyze_discovery_material_ce ce) fresh = [].
Proof.
  cbv zeta.
  destruct (router_ignores_other_events
              (Event "google.cloud.storage.object.v1.deleted" "intake" "report.pdf") fresh
              ltac:(discriminate)) as (R & C & _).
  split; [exact R | exact C].
Defined.

(** X5: For an object at the bucket root the handler stops after the policy
    stage: it makes no call but the delete and those of the audit append,
    so the object is never downloaded, probed or transcribed. *)
Theorem router_stops_at_root (ce : CloudEvent) (w : world) :
  ce_type ce = FINALIZED -> Py.contains "/" (name ce) = false ->
  let d := new_calls (analyze_discovery_material_ce ce) w in
  d = [] \/
  exists d', d = CDelete (bucket ce, name ce) :: d' /\
             audit_calls (now w) "INFO"
               ("Deleted disallowed file " +:+ name ce
                +:+ " (no files allowed at bucket root)") d'.
Proof.
  intros Ht Hs. apply String.eqb_eq in Ht.
  destruct (analyze_at_root_spec ce w Ht Hs) as (r & w' & d & l & E & J & S).
  assert (Hd : new_calls (analyze_discovery_material_ce ce) w = d).
  { apply (journal_new_calls (analyze_discovery_material_ce ce) w d l).
    unfold exec. now rewrite E. }
  simpl. rewrite Hd. exact S.
Qed.

Lemma router_stops_at_root_witness :
  let ce := Event FINALIZED "intake" "report.wav" in
  let w := holding ("intake", "report.wav") "RIFF" fresh in
  landmarks (new_calls (analyze_discovery_material_ce ce) w)
  = [CDelete ("intake", "report.wav")].
Proof.
  cbv zeta.
  destruct (router_stops_at_root (Event FINALIZED "intake" "report.wav")
              (holding ("intake", "report.wav") "RIFF" fresh) eq_refl eq_refl)
    as [H|(d' & H & (l & n & L))]; rewrite H.
  - exfalso. apply (f_equal length) in H. vm_compute in H. discriminate H.
  - change (CDelete ("intake", "report.wav") :: landmarks d' = [CDelete ("intake", "report.wav")]).
    now rewrite (loop_shape_landmarks _ _ _ _ _ _ L).
Defined.

(** X6: In one invocation the handler deletes at most one object, the object
    of the event, and calls the recogniser at most once, on that object and
    after any delete. *)
Theorem router_deletes_and_transcribes_at_most_once (ce : CloudEvent) (w : world) :
  exists deleted recognized,
    landmarks (new_calls (analyze_discovery_material_ce ce) w) = deleted ++ recognized /\
    (deleted = [] \/ deleted = [CDelete (bucket ce, name ce)]) /\
    (recognized = [] \/
     recognized = [CRecognize ("gs://" +:+ bucket ce +:+ "/" +:+ name ce)] /\
     Py.contains "/" (name ce) = true /\
     Py.str_in (get_file_extension (name ce)) AUDIO_EXTS = true).
Proof.
  destruct (String.eqb (ce_type ce) FINALIZED) eqn:Ht.
  2:{ exists [], []. unfold new_calls, exec. rewrite (analyze_other_event ce w Ht). simpl.
      rewrite drop_all. auto. }
  destruct (Py.contains "/" (name ce)) eqn:Hs.
  - destruct (analyze_in_folder_spec ce w Ht Hs) as (w' & dv & ds & l & E & J & SV & SS).
    assert (Hd : new_calls (analyze_discovery_material_ce ce) w = dv ++ ds).
    { apply (journal_new_calls (analyze_discovery_material_ce ce) w _ l).
      unfold exec. now rewrite E. }
    rewrite Hd, landmarks_app.
    exists (landmarks dv), (landmarks ds). split; [reflexivity|]. split.
    + destruct SV as [|c probe Hp|c probe message d Hp (ls & n & L)].
      * now left.
      * left. destruct Hp as [-> | ->]; reflexivity.
      * right.
        change (landmarks (probe ++ CDelete (bucket ce, name ce) :: d)
                = [CDelete (bucket ce, name ce)]).
        rewrite landmarks_app.
        change (landmarks (CDelete (bucket ce, name ce) :: d))
          with (CDelete (bucket ce, name ce) :: landmarks d).
        rewrite (loop_shape_landmarks _ _ _ _ _ _ L).
        destruct Hp as [-> | ->]; reflexivity.
    + destruct (Py.str_in (get_file_extension (name ce)) AUDIO_EXTS).
      * right. split; [|auto].
        destruct SS as [body d _ (ls & n & L)|e d (ls & n & L)]; simpl;
          fold (landmarks d); rewrite (loop_shape_landmarks _ _ _ _ _ _ L); reflexivity.
      * left. now subst ds.
  - destruct (analyze_at_root_spec ce w Ht Hs) as (r & w' & d & l & E & J & S).
    assert (Hd : new_calls (analyze_discovery_material_ce ce) w = d).
    { apply (journal_new_calls (analyze_discovery_material_ce ce) w d l).
      unfold exec. now rewrite E. }
    rewrite Hd. destruct S as [-> | (d' & -> & (ls & n & L))].
    + exists [], []. auto.
    + exists [CDelete (bucket ce, name ce)], []. split; [|auto].
      change (CDelete (bucket ce, name ce) :: landmarks d' = [CDelete (bucket ce, name ce)] ++ []).
      now rewrite (loop_shape_landmarks _ _ _ _ _ _ L).
Qed.

(** ** The audit logger: edge cases *)

(** With no attempt allowed the call does nothing at all: the entry is
    dropped without a trace. *)
Theorem gcs_log_without_attempts (message severity : string) (max_retries : Z) (w : world) :
  max_retries <= 0 ->
  gcs_log message severity max_retries w = (Ok tt, w).
Proof.
  intros H. unfold gcs_log, bind, gets.
  replace (Z.to_nat max_retries) with O by lia. reflexivity.
Qed.

Lemma gcs_log_without_attempts_witness :
  gcs_log "lost" "INFO" 0 contended = (Ok tt, contended).
Proof. apply gcs_log_without_attempts. lia. Defined.

(** X26: The call touches no object but the audit log, whatever happens, and it
    deletes nothing. *)
Theorem gcs_log_touches_only_the_log (message severity : string) (max_retries : Z)
    (w : world) :
  let m := gcs_log message severity max_retries in
  (forall k, k <> LOG_KEY -> store (exec m w) !! k = store w !! k) /\
  landmarks (new_calls m w) = [] /\
  forall k c p, CUpload k c p ∈ new_calls m w -> k = LOG_KEY.
Proof.
  destruct (gcs_log_journals message severity max_retries w) as (_ & n & X & L).
  simpl. split; [apply X|]. split.
  - exact (loop_shape_landmarks _ _ _ _ _ _ L).
  - intros k c p. exact (loop_shape_uploads _ _ _ _ _ _ _ _ _ L).
Qed.

(** X27: An undisturbed call with at least one attempt appends its entry to the
    end of the log with one write, at a fresh generation; the write carries
    the generation it read as precondition when the log existed (with a
    positive generation), and none otherwise. *)
Theorem gcs_log_undisturbed_appends (message severity : string) (max_retries : Z)
    (w : world) :
  turns w = [] -> 0 < max_retries ->
  let m := gcs_log message severity max_retries in
  let log_entry := format_entry (now w) severity message in
  result m w = Ok tt /\
  store (exec m w) !! LOG_KEY
  = Some (Blob (next_generation w) (content_of w LOG_KEY +:+ log_entry)) /\
  next_generation (exec m w) = next_generation w + 1 /\
  accepted_log_writes (new_calls m w)
  = [(content_of w LOG_KEY +:+ log_entry,
      if 0 <? generation_of w LOG_KEY then Some (generation_of w LOG_KEY) else None)] /\
  sleeps (new_calls m w) = [].
Proof.
  intros Hq Hn m log_entry.
  destruct (gcs_log_quiet_run message severity max_retries w Hq Hn)
    as (w' & E & S & G & T & C).
  unfold new_calls, result, exec, m. rewrite E. simpl.
  split; [reflexivity|]. split.
  { rewrite S. unfold other_append. simpl. now rewrite lookup_insert_eq. }
  split; [exact G|].
  rewrite C, drop_app_length.
  unfold accepted_log_writes, sleeps. rewrite !flat_map_app.
  destruct (bool_decide (is_Some (store w !! LOG_KEY))); split; reflexivity.
Qed.

Lemma gcs_log_undisturbed_appends_witness :
  let w := holding LOG_KEY "old" fresh in
  result (gcs_log "x" "INFO" 5) w = Ok tt /\
  store (exec (gcs_log "x" "INFO" 5) w) !! LOG_KEY
  = Some (Blob 2 ("old[2025-01-01 00:00:00 UTC] [INFO]: x" +:+ Py.nl)) /\
  accepted_log_writes (new_calls (gcs_log "x" "INFO" 5) w)
  = [("old[2025-01-01 00:00:00 UTC] [INFO]: x" +:+ Py.nl, Some 1)].
Proof.
  cbv zeta.
  destruct (gcs_log_undisturbed_appends "x" "INFO" 5 (holding LOG_KEY "old" fresh)
              eq_refl ltac:(lia)) as (R & S & _ & A & _).
  split; [exact R|]. split; [exact S | exact A].
Defined.

(** X28: A failure that is not a generation mismatch ends the call at once: no
    retry, no wait, one ERROR record in the process logger. *)
Theorem gcs_log_gives_up_on_other_failures (message severity : string) (max_retries : Z)
    (w : world) (t : turn) (later : list turn) (e : exn) :
  turns w = t :: later -> fault t = Some e -> kind e <> PreconditionFailed ->
  0 < max_retries ->
  let m := gcs_log message severity max_retries in
  result m w = Ok tt /\
  new_calls m w = [] /\
  new_records m w
  = [(ERROR, "❌ Unexpected error while writing to logs.txt: " +:+ text e)] /\
  turns (exec m w) = later.
Proof.
  intros Ht Hf Hk Hn m.
  destruct (Z.to_nat max_retries) as [|r] eqn:Hr; [lia|].
  destruct (others_keep_journals (others t) (set_turns later w)) as ((C & L & _) & _ & T).
  assert (K : is_kind PreconditionFailed e = false)
    by (unfold is_kind; destruct (kind e); try reflexivity; contradiction).
  unfold new_calls, new_records, result, exec, m, gcs_log, bind, gets. rewrite Hr. simpl.
  unfold gcs_log_body, gcs_log_try, try_except, bind, gcs_log_stage, bind,
    blob_exists, bind, env_turn.
  rewrite Ht, Hf, K. simpl.
  rewrite C, L, T, !app_nil_r. simpl.
  repeat apply conj; auto.
  - apply drop_all.
  - apply drop_app_length.
Qed.

Lemma gcs_log_gives_up_on_other_failures_witness :
  let w := set_turns [Turn [] (Some (Exn OtherError "503 service unavailable")); undisturbed]
                     fresh in
  result (gcs_log "x" "INFO" 5) w = Ok tt /\
  new_calls (gcs_log "x" "INFO" 5) w = [] /\
  turns (exec (gcs_log "x" "INFO" 5) w) = [undisturbed].
Proof.
  cbv zeta.
  destruct (gcs_log_gives_up_on_other_failures "x" "INFO" 5
              (set_turns [Turn [] (Some (Exn OtherError "503 service unavailable")); undisturbed]
                         fresh)
              (Turn [] (Some (Exn OtherError "503 service unavailable"))) [undisturbed]
              (Exn OtherError "503 service unavailable")
              eq_refl eq_refl ltac:(discriminate) ltac:(lia)) as (R & C & _ & T).
  split; [exact R|]. split; [exact C | exact T].
Defined.

(** ** Paths: extensions, base names and folders *)

Section MorePaths.

Lemma lower_ascii_idempotent (a : ascii) :
  Py.lower_ascii (Py.lower_ascii a) = Py.lower_ascii a.
Proof. destruct a as [[] [] [] [] [] [] [] []]; reflexivity. Qed.

Lemma lower_ascii_keeps (c a : ascii) :
  c = "."%char \/ c = "/"%char ->
  Ascii.eqb (Py.lower_ascii a) c = Ascii.eqb a c.
Proof. intros [-> | ->]; destruct a as [[] [] [] [] [] [] [] []]; reflexivity. Qed.

Lemma lower_idempotent (s : string) : Py.lower (Py.lower s) = Py.lower s.
Proof.
  induction s as [|a s IH]; simpl; [reflexivity|].
  now rewrite lower_ascii_idempotent, IH.
Qed.

Lemma contains_lower (c : ascii) (s : string) :
  c = "."%char \/ c = "/"%char -> Py.contains c (Py.lower s) = Py.contains c s.
Proof.
  intros Hc. induction s as [|a s IH]; simpl; [reflexivity|].
  now rewrite (lower_ascii_keeps c a Hc), IH.
Qed.

(** X17: The extension that drives every dispatch is in lower case, and it is
    empty or one dot followed by characters that are neither dots nor
    separators. *)
Theorem file_extension_shape (file_name : string) :
  let ext := get_file_extension file_name in
  Py.lower ext = ext /\
  (ext = EmptyString \/
   exists r, ext = String "." r /\ Py.contains "." r = false /\ Py.contains "/" r = false).
Proof.
  unfold get_file_extension. cbv zeta. split; [apply lower_idempotent|].
  destruct (splitext_extension file_name) as [-> | (r & -> & Hd & Hs)]; [now left|].
  right. exists (Py.lower r). simpl. split; [reflexivity|].
  rewrite !contains_lower by auto. auto.
Qed.

Lemma rfind_present (c : ascii) (s : string) :
  0 <= Py.rfind c s -> Py.contains c s = true.
Proof.
  induction s as [|a s IH]; simpl; [lia|].
  destruct (0 <=? Py.rfind c s) eqn:E.
  - intros _. apply Z.leb_le in E. rewrite (IH E). apply orb_true_r.
  - destruct (Ascii.eqb a c); [reflexivity | lia].
Qed.

Lemma basename_cons (a : ascii) (r : string) :
  Py.basename (String a r)
  = if Py.contains "/" r then Py.basename r
    else if Ascii.eqb a "/" then r else String a r.
Proof.
  unfold Py.basename, Py.slice_from. simpl.
  pose proof (rfind_lower_bound "/" r) as Hl.
  destruct (0 <=? Py.rfind "/" r) eqn:E.
  - apply Z.leb_le in E. rewrite (rfind_present _ _ E).
    replace (Z.to_nat (Py.rfind "/" r + 1 + 1)) with (S (Z.to_nat (Py.rfind "/" r + 1))) by lia.
    reflexivity.
  - apply Z.leb_gt in E. rewrite (rfind_absent _ _ E).
    destruct (Ascii.eqb a "/"); reflexivity.
Qed.

(** The base name holds no separator, and the path is its directory part
    followed by the base name: the scratch file of an object lies directly
    in [/tmp]. *)
Theorem basename_is_last_component (p : string) :
  Py.contains "/" (Py.basename p) = false /\
  p = Py.slice_to (Py.rfind "/" p + 1) p +:+ Py.basename p /\
  (Py.contains "/" p = false -> Py.basename p = p).
Proof.
  unfold Py.basename, Py.slice_from, Py.slice_to. repeat apply conj.
  - apply contains_drop_after. pose proof (rfind_lower_bound "/" p). lia.
  - symmetry. apply take_drop.
  - intros H. destruct (Z.leb_spec 0 (Py.rfind "/" p)) as [E|E].
    + rewrite (rfind_present _ _ E) in H. discriminate.
    + pose proof (rfind_lower_bound "/" p).
      replace (Py.rfind "/" p + 1) with 0 by lia. reflexivity.
Qed.

Lemma split_not_nil (c : ascii) (s : string) : Py.split c s <> [].
Proof.
  destruct s as [|a s]; simpl; [discriminate|].
  destruct (Ascii.eqb a c); [discriminate|].
  destruct (Py.split c s); discriminate.
Qed.

Lemma join_cons (sep x : string) (l : list string) :
  l <> [] -> Py.join sep (x :: l) = x +:+ sep +:+ Py.join sep l.
Proof. destruct l; [contradiction | reflexivity]. Qed.

(** Cutting at the separators and joining again gives the path back. *)
Theorem join_split_round_trip (p : string) : Py.join "/" (Py.split "/" p) = p.
Proof.
  induction p as [|a p IH]; [reflexivity|]. simpl.
  destruct (Ascii.eqb_spec a "/") as [->|Ha].
  - rewrite join_cons by apply split_not_nil. now rewrite IH.
  - pose proof (split_not_nil "/" p) as Hn.
    destruct (Py.split "/" p) as [|x xs]; [contradiction|].
    destruct xs as [|y ys].
    + simpl in *. now rewrite IH.
    + rewrite join_cons by discriminate. rewrite join_cons in IH by discriminate.
      rewrite append_cons. now rewrite IH.
Qed.

Lemma split_without_separator (c : ascii) (s : string) :
  Py.contains c s = false -> Py.split c s = [s].
Proof.
  induction s as [|a s IH]; simpl; [reflexivity|].
  destruct (Ascii.eqb a c); simpl; [discriminate|].
  intros H. now rewrite (IH H).
Qed.

Lemma split_with_separator (c : ascii) (s : string) :
  Py.contains c s = true -> exists x y ys, Py.split c s = x :: y :: ys.
Proof.
  induction s as [|a s IH]; simpl; [discriminate|].
  destruct (Ascii.eqb a c); simpl.
  - intros _. pose proof (split_not_nil c s).
    destruct (Py.split c s) as [|y ys]; [contradiction | eauto].
  - intros H. destruct (IH H) as (x & y & ys & ->). eauto.
Qed.

Lemma last_split_is_basename (p : string) :
  List.last (Py.split "/" p) EmptyString = Py.basename p.
Proof.
  induction p as [|a p IH]; [reflexivity|].
  rewrite basename_cons. simpl.
  destruct (Py.contains "/" p) eqn:Hc.
  - destruct (split_with_separator _ _ Hc) as (x & y & ys & E). rewrite E in *.
    destruct (Ascii.eqb a "/"); exact IH.
  - rewrite (split_without_separator _ _ Hc).
    destruct (Ascii.eqb a "/"); reflexivity.
Qed.

Lemma append_associative (s t u : string) : (s +:+ t) +:+ u = s +:+ (t +:+ u).
Proof.
  induction s as [|a s IH]; [reflexivity|].
  rewrite !append_cons. now rewrite IH.
Qed.

Lemma join_snoc (sep x : string) (l : list string) :
  l <> [] -> Py.join sep (l ++ [x]) = Py.join sep l +:+ sep +:+ x.
Proof.
  induction l as [|y l IH]; [contradiction|]. intros _.
  destruct l as [|z l]; [reflexivity|].
  change ((y :: z :: l) ++ [x]) with (y :: ((z :: l) ++ [x])).
  rewrite join_cons by (destruct l; discriminate).
  rewrite (join_cons sep y (z :: l)) by discriminate.
  rewrite IH by discriminate.
  now rewrite !append_associative.
Qed.

(** X12: [get_file_path] is the path without its last component: empty for a
    path without separator, and otherwise what stands before the last
    separator, so that directory, separator and base name give the path. *)
Theorem get_file_path_and_basename (p : string) :
  (Py.contains "/" p = false -> get_file_path p = EmptyString) /\
  (Py.contains "/" p = true -> get_file_path p +:+ "/" +:+ Py.basename p = p).
Proof.
  unfold get_file_path. split; intros Hc.
  - now rewrite (split_without_separator _ _ Hc).
  - destruct (split_with_separator _ _ Hc) as (x & y & ys & E).
    pose proof (join_split_round_trip p) as J.
    pose proof (last_split_is_basename p) as B.
    rewrite (app_removelast_last EmptyString (split_not_nil "/" p)) in J.
    rewrite B in J. rewrite join_snoc in J; [exact J|].
    rewrite E. discriminate.
Qed.

Lemma get_file_path_and_basename_witness :
  get_file_path "report.pdf" = EmptyString /\
  get_file_path "caseA/sub/interview.wav" +:+ "/" +:+ Py.basename "caseA/sub/interview.wav"
  = "caseA/sub/interview.wav".
Proof.
  split.
  - exact (proj1 (get_file_path_and_basename "report.pdf") eq_refl).
  - exact (proj2 (get_file_path_and_basename "caseA/sub/interview.wav") eq_refl).
Defined.

End MorePaths.

(** ** [create_folder] *)

Section Folders.

Lemma endswith_snoc (c : ascii) (s : string) :
  Py.endswith c (s +:+ String c EmptyString) = true.
Proof.
  induction s as [|a s IH]; [apply Ascii.eqb_refl|].
  rewrite append_cons.
  destruct (s +:+ String c EmptyString) eqn:E; [destruct s; discriminate|].
  exact IH.
Qed.

Lemma lstrip_char_head (c : ascii) (s : string) :
  Py.lstrip_char c s = EmptyString \/
  exists a r, Py.lstrip_char c s = String a r /\ a <> c.
Proof.
  induction s as [|a s IH]; simpl; [now left|].
  destruct (Ascii.eqb_spec a c); [exact IH | right; eauto].
Qed.

Lemma lstrip_char_fixed (c a : ascii) (r : string) :
  a <> c -> Py.lstrip_char c (String a r) = String a r.
Proof. intros H. simpl. now destruct (Ascii.eqb_spec a c). Qed.

(** X13: The name of the folder object always ends with a separator; it does
    not begin with one, except that an empty name or a name made of
    separators only becomes ["/"]; and a name of that form is left as it
    is. *)
Theorem folder_object_name_is_normal (folder_name : string) :
  let n := folder_object_name folder_name in
  Py.endswith "/" n = true /\
  (n = "/" \/ exists a r, n = String a r /\ a <> "/"%char) /\
  folder_object_name n = n.
Proof.
  unfold folder_object_name. cbv zeta.
  destruct (lstrip_char_head "/" folder_name) as [-> | (a & r & -> & Ha)].
  - simpl. auto.
  - assert (H : forall s, s = String a r ->
                (if negb (Py.endswith "/" s) then s +:+ "/" else s)
                = String a (if negb (Py.endswith "/" s) then r +:+ "/" else r)).
    { intros s ->. destruct (negb _); reflexivity. }
    rewrite (H _ eq_refl).
    assert (E : Py.endswith "/" (String a (if negb (Py.endswith "/" (String a r))
                                           then r +:+ "/" else r)) = true).
    { destruct (Py.endswith "/" (String a r)) eqn:Hend; simpl negb; cbv iota.
      - exact Hend.
      - rewrite <- append_cons. apply endswith_snoc. }
    split; [exact E|]. split; [right; eauto|].
    rewrite lstrip_char_fixed by exact Ha. now rewrite E.
Qed.

(** X14: [create_folder] never raises.  It makes at most one storage call, an
    unconditional write of an empty object under the normalised name, and
    when nothing disturbs it the object is there afterwards. *)
Theorem create_folder_writes_one_empty_object (bucket_name folder_name : string)
    (w : world) :
  let m := create_folder bucket_name folder_name in
  let k := (bucket_name, folder_object_name folder_name) in
  result m w = Ok tt /\
  (new_calls m w = [] \/ new_calls m w = [CUpload k EmptyString None]) /\
  (first_call_succeeds w ->
   new_calls m w = [CUpload k EmptyString None] /\
   exists g, store (exec m w) !! k = Some (Blob g EmptyString)).
Proof.
  intros m k. unfold m, create_folder. fold k.
  unfold result, new_calls, exec, try_except, bind.
  destruct (blob_upload_from_string k EmptyString w) as [[[]|e] w1] eqn:U.
  - apply blob_upload_from_string_spec in U as [(C & _) S].
    unfold logger_info, modify. simpl. rewrite C, drop_app_length.
    split; [reflexivity|]. split; [now right|]. intros _. split; [reflexivity|]. eauto.
  - pose proof U as U'. apply blob_upload_from_string_spec in U as (C & _).
    unfold logger_exception, modify. simpl. rewrite C, app_nil_r, drop_all.
    split; [reflexivity|]. split; [now left|]. intros Hf. exfalso.
    unfold blob_upload_from_string, bind, env_turn, first_call_succeeds in *.
    destruct (turns w) as [|t ts]; [discriminate|].
    rewrite Hf in U'. discriminate.
Qed.

Lemma create_folder_writes_one_empty_object_witness :
  new_calls (create_folder "intake" "//caseB") fresh = [CUpload ("intake", "caseB/") EmptyString None] /\
  exists g, store (exec (create_folder "intake" "//caseB") fresh) !! ("intake", "caseB/")
            = Some (Blob g EmptyString).
Proof.
  exact (proj2 (proj2 (create_folder_writes_one_empty_object "intake" "//caseB" fresh)) I).
Defined.

End Folders.

(** ** [init_clients] *)

Section ClientHandles.

Import Clients.

(** X1: A call that returns leaves both clients in place, and from then on a
    call builds nothing, keeps the handles and logs nothing. *)
Theorem init_clients_builds_once (f f' : factory) (g g' : handles)
    (l : list (level * string)) :
  init_clients f g = (Ok tt, g', l) ->
  is_Some (storage_client g') /\ is_Some (speech_client g') /\
  init_clients f' g' = (Ok tt, g', []) /\
  (forall c, storage_client g = Some c -> storage_client g' = Some c) /\
  (forall c, speech_client g = Some c -> speech_client g' = Some c).
Proof.
  unfold init_clients. destruct g as [[s|] [p|]]; simpl.
  - intros [= <- <-]. simpl. repeat apply conj; eauto.
  - destruct (new_speech f) as [c|e]; simpl; [|intros [=]].
    intros [= <- <-]. simpl. repeat apply conj; eauto; discriminate.
  - destruct (new_storage f) as [c|e]; simpl; [|intros [=]].
    intros [= <- <-]. simpl. repeat apply conj; eauto; discriminate.
  - destruct (new_storage f) as [c|e]; simpl; [|intros [=]].
    destruct (new_speech f) as [c'|e]; simpl; [|intros [=]].
    intros [= <- <-]. simpl. repeat apply conj; eauto; discriminate.
Qed.

Lemma init_clients_builds_once_witness :
  init_clients (Factory (Ok 1%nat) (Ok 2%nat)) (Handles None None)
  = (Ok tt, Handles (Some 1%nat) (Some 2%nat),
     [(INFO, "Initialized storage client."); (INFO, "Initialized speech client.")]) /\
  init_clients (Factory (Raise (Exn OtherError "no credentials")) (Ok 3%nat))
               (Handles (Some 1%nat) (Some 2%nat))
  = (Ok tt, Handles (Some 1%nat) (Some 2%nat), []).
Proof.
  split; [reflexivity|].
  exact (proj1 (proj2 (proj2 (init_clients_builds_once
                                (Factory (Ok 1%nat) (Ok 2%nat))
                                (Factory (Raise (Exn OtherError "no credentials")) (Ok 3%nat))
                                (Handles None None) _ _ eq_refl)))).
Defined.

(** X2: The two records "Failed to initialize ... client!" are never logged: a
    constructor that fails raises, and the call ends there, the storage
    failure coming first and leaving the speech client unbuilt. *)
Theorem init_clients_never_reports_failure (f : factory) (g : handles) :
  let '(r, g', l) := init_clients f g in
  errors l = [] /\
  match r with
  | Ok _ => True
  | Raise e =>
      (storage_client g = None /\ new_storage f = Raise e /\ g' = g /\ l = []) \/
      (speech_client g = None /\ new_speech f = Raise e /\ speech_client g' = None)
  end.
Proof.
  unfold init_clients. destruct g as [[s|] [p|]]; simpl; auto.
  - destruct (new_speech f) as [c|e] eqn:E; simpl; auto 10.
  - destruct (new_storage f) as [c|e] eqn:E; simpl; auto 10.
  - destruct (new_storage f) as [c|e] eqn:E; simpl; auto 10.
    destruct (new_speech f) as [c'|e] eqn:E'; simpl; auto 10.
Qed.

End ClientHandles.

(** ** The audit logger on an established log: no entry is lost *)


Section EstablishedLog.








End EstablishedLog.

Section EstablishedCalls.






End EstablishedCalls.

Section EstablishedAttempts.

Variable log_entry : string.





End EstablishedAttempts.

Section EstablishedRuns.

Variable log_entry : string.


End EstablishedRuns.


